(** * The kernel-session flow of the file editor widget

    Shallow embedding of the code-run path of [FileEditor] in
    packages/fileeditor/src/widget.ts: [runPython], [getKernelSpecs],
    [startKernel], [shutDownKernel] and the IOPub handler that
    [runPython] installs.

    The widget is a reactive program on a single-threaded event loop.
    Each task of the loop (a click on the toolbar button, the settling of
    a promise the widget awaits, an IOPub message dispatched by a future)
    is an [Input]; what the widget does in that task (console output and
    calls on the kernel service) is a list of [Event]s.  The kernel
    service of @jupyterlab/services is an external collaborator: its
    answers arrive as inputs and are never computed here.

    The file also embeds the handlers of the editor wrapper and of the
    widget for collaborators, focus, DOM events and the path.  What the
    sources do not contain, the kernel connection and the launcher of
    @jupyterlab/services, is given as the specification describes it, in
    definitions that say so. *)

From stdpp Require Import base option list strings gmap pretty.

Open Scope string_scope.
Open Scope list_scope.

(** ** Runtime values *)

(** TypeScript annotations are erased at run time.  The values the code
    concatenates into strings or compares with [===] are kept as runtime
    values; the other data has the shape of its interface. *)
Inductive JsVal :=
| JUndefined
| JNull
| JBool (b : bool)
| JStr (s : string).

#[global] Instance JsVal_eq_dec : EqDecision JsVal.
Proof. solve_decision. Defined.

(** The string conversion applied by [+] with a string operand. *)
Definition toStr (v : JsVal) : string :=
  match v with
  | JUndefined => "undefined"
  | JNull => "null"
  | JBool true => "true"
  | JBool false => "false"
  | JStr s => s
  end.

(** [a === b] on these values. *)
Definition strict_eq (a b : JsVal) : bool := bool_decide (a = b).

(** A JS object used as a record with optional fields. *)
Abbreviation JsObject := (gmap string JsVal).

(** [key in obj]. *)
Definition has_key (key : string) (obj : JsObject) : bool :=
  bool_decide (is_Some (obj !! key)).

(** [obj.key]: a missing property reads as [undefined]. *)
Definition get (key : string) (obj : JsObject) : JsVal :=
  default JUndefined (obj !! key).

(** ** Data of the kernel service *)

Record ISpecModel := { spec_name : string; display_name : string }.

(** [Kernel.ISpecModels]: [kernelspecs] keeps insertion order, which is
    the order of [Object.keys]. *)
Record ISpecModels := {
  specs_default : string;
  kernelspecs : list (string * ISpecModel)
}.

Definition Object_keys (o : list (string * ISpecModel)) : list string := o.*1.

(** [Kernel.IOptions], restricted to the field the widget sets. *)
Record IOptions := { opt_name : string }.

(** [Kernel.IKernel]: identity and name of a live kernel connection. *)
Record IKernel := { kernel_id : string; kernel_name : string }.

#[global] Instance IOptions_eq_dec : EqDecision IOptions.
Proof. solve_decision. Defined.
#[global] Instance IKernel_eq_dec : EqDecision IKernel.
Proof. solve_decision. Defined.

(** A kernel message ([KernelMessage.IIOPubMessage]) with its type
    flattened out of the header; the handler reads only [content]. *)
Record IMessage := { msg_type : string; channel : string; content : JsObject }.

(** The reason a promise is rejected with, or a call throws. *)
Definition Reason := string.

(** How a promise settles. *)
Inductive Settled (A : Type) :=
| Fulfilled (a : A)
| Rejected (e : Reason).
Arguments Fulfilled {A} a.
Arguments Rejected {A} e.

(** What [kernel.requestExecute] does when it is called. *)
Inductive ExecReturn :=
| ReturnsFuture
| Throws (e : Reason).

(** ** Observable actions of the widget *)

Inductive LogArg :=
| LVal (v : JsVal)
| LArr (xs : list string).

Inductive Event :=
| Log (args : list LogArg)                        (* console.log(...) *)
| CallGetSpecs                                    (* Kernel.getSpecs() *)
| CallStartNew (options : IOptions)               (* Kernel.startNew(options) *)
| CallRequestExecute (kernel : IKernel) (code : JsVal)
                                                  (* kernel.requestExecute({code}) *)
| CallShutdown (kernel : IKernel).                (* kernel.shutdown() *)

#[global] Instance LogArg_eq_dec : EqDecision LogArg.
Proof. solve_decision. Defined.
#[global] Instance Event_eq_dec : EqDecision Event.
Proof. solve_decision. Defined.

Definition log1 (s : string) : Event := Log [LVal (JStr s)].

(** ** The IOPub handler (widget.ts, lines 219-224) *)

(** The line feed of the string literal at line 222. *)
Definition LF : string := String (Ascii.ascii_of_nat 10) EmptyString.

Definition onIOPub (msg : IMessage) : list Event :=
  if has_key "name" (content msg) && strict_eq (get "name" (content msg)) (JStr "stdout")
  then
    let output := get "text" (content msg) in
    [log1 ("Output:" +:+ LF +:+ toStr output)]
  else [].

(** ** Runs of [runPython] *)

(** Where one invocation of [runPython] stands between two tasks. *)
Inductive Stage :=
| AwaitSpecs (code : JsVal)        (* suspended at line 214 *)
| AwaitKernel (code : JsVal)       (* suspended at line 216 *)
| InFlight (kernel : IKernel)      (* lines 217-229 done, future outstanding *)
| DoneRejected (kernel : IKernel) (e : Reason)
                                   (* future.done rejected: callback not run *)
| AwaitShutdown (kernel : IKernel) (* line 272: shutdown promise pending *)
| ShutDown (kernel : IKernel)      (* line 273 has run *)
| ShutdownRejected (kernel : IKernel) (e : Reason)
| Aborted (e : Reason).            (* the promise of runPython rejected *)

#[global] Instance Stage_eq_dec : EqDecision Stage.
Proof. solve_decision. Defined.

(** [future.onIOPub] is assigned at line 219 and never cleared. *)
Definition handler_installed (s : Stage) : bool :=
  match s with
  | InFlight _ | DoneRejected _ _ | AwaitShutdown _ | ShutDown _
  | ShutdownRejected _ _ => true
  | AwaitSpecs _ | AwaitKernel _ | Aborted _ => false
  end.

(** The widget: the editor text and the runs started so far, indexed in
    the order of the clicks. *)
Record Widget := {
  text : JsVal;
  runs : list Stage
}.

Definition init (t : JsVal) : Widget := {| text := t; runs := [] |}.

(** The tasks of the event loop. [r] names the run whose promise settles
    or whose future dispatches. *)
Inductive Input :=
| Edit (v : JsVal)
| Click
| SpecsSettled (r : nat) (o : Settled ISpecModels)
| KernelSettled (r : nat) (o : Settled IKernel) (x : ExecReturn)
| IOPub (r : nat) (m : IMessage)
| DoneSettled (r : nat) (o : Settled unit)
| ShutdownSettled (r : nat) (o : Settled unit).

Definition set_stage (w : Widget) (r : nat) (s : Stage) : Widget :=
  {| text := text w; runs := <[r := s]> (runs w) |}.

(** [runPython] up to its first suspension (lines 210-214 and 241). *)
Definition runPython_start (w : Widget) : Widget * list Event :=
  let code := text w in
  ({| text := text w; runs := runs w ++ [AwaitSpecs code] |},
   [log1 ("Code: " +:+ toStr code); CallGetSpecs]).

(** [getKernelSpecs] after its await (lines 242-244), then lines 215-216
    and 248. *)
Definition after_getSpecs (code : JsVal) (o : Settled ISpecModels)
  : Stage * list Event :=
  match o with
  | Fulfilled kernelSpecs =>
      let kernelSettings := {| opt_name := specs_default kernelSpecs |} in
      (AwaitKernel code,
       [Log [LVal (JStr "Default spec:"); LVal (JStr (specs_default kernelSpecs))];
        Log [LVal (JStr "Available specs:"); LArr (Object_keys (kernelspecs kernelSpecs))];
        CallStartNew kernelSettings])
  | Rejected e => (Aborted e, [])
  end.

(** Lines 217-229: the execute request, the handler and the [done]
    callback. *)
Definition after_startKernel (code : JsVal) (o : Settled IKernel) (x : ExecReturn)
  : Stage * list Event :=
  match o with
  | Fulfilled kernel =>
      (match x with
       | ReturnsFuture => InFlight kernel
       | Throws e => Aborted e
       end,
       [CallRequestExecute kernel code])
  | Rejected e => (Aborted e, [])
  end.

(** [shutDownKernel] (lines 270-272): the call; its callback is a later
    task. *)
Definition shutDownKernel (kernel : IKernel) : list Event :=
  [CallShutdown kernel].

(** The callback of [future.done.then] (lines 226-229). *)
Definition after_done (kernel : IKernel) (o : Settled unit) : Stage * list Event :=
  match o with
  | Fulfilled _ =>
      (AwaitShutdown kernel,
       log1 ("Done. Shutting down " +:+ kernel_name kernel +:+ " kernel...")
         :: shutDownKernel kernel)
  | Rejected e => (DoneRejected kernel e, [])
  end.

(** The callback of [kernel.shutdown().then] (lines 272-274). *)
Definition after_shutdown (kernel : IKernel) (o : Settled unit) : Stage * list Event :=
  match o with
  | Fulfilled _ => (ShutDown kernel, [log1 "Kernel shut down"])
  | Rejected e => (ShutdownRejected kernel e, [])
  end.

(** One task.  A settlement that no continuation of run [r] waits for
    has no effect: a promise settles once. *)
Definition step (w : Widget) (i : Input) : Widget * list Event :=
  match i with
  | Edit v => ({| text := v; runs := runs w |}, [])
  | Click => runPython_start w
  | SpecsSettled r o =>
      match runs w !! r with
      | Some (AwaitSpecs code) =>
          let '(s, evs) := after_getSpecs code o in (set_stage w r s, evs)
      | _ => (w, [])
      end
  | KernelSettled r o x =>
      match runs w !! r with
      | Some (AwaitKernel code) =>
          let '(s, evs) := after_startKernel code o x in (set_stage w r s, evs)
      | _ => (w, [])
      end
  | IOPub r m =>
      match runs w !! r with
      | Some s => if handler_installed s then (w, onIOPub m) else (w, [])
      | None => (w, [])
      end
  | DoneSettled r o =>
      match runs w !! r with
      | Some (InFlight kernel) =>
          let '(s, evs) := after_done kernel o in (set_stage w r s, evs)
      | _ => (w, [])
      end
  | ShutdownSettled r o =>
      match runs w !! r with
      | Some (AwaitShutdown kernel) =>
          let '(s, evs) := after_shutdown kernel o in (set_stage w r s, evs)
      | _ => (w, [])
      end
  end.

(** A sequence of tasks, with everything the widget did. *)
Fixpoint exec (w : Widget) (inputs : list Input) : Widget * list Event :=
  match inputs with
  | [] => (w, [])
  | i :: rest =>
      let '(w1, evs1) := step w i in
      let '(w2, evs2) := exec w1 rest in
      (w2, evs1 ++ evs2)
  end.

Definition trace (w : Widget) (inputs : list Input) : list Event :=
  (exec w inputs).2.

Definition final (w : Widget) (inputs : list Input) : Widget :=
  (exec w inputs).1.

(** The run a task belongs to. *)
Definition input_run (i : Input) : option nat :=
  match i with
  | Edit _ | Click => None
  | SpecsSettled r _ | KernelSettled r _ _ | IOPub r _
  | DoneSettled r _ | ShutdownSettled r _ => Some r
  end.

(** Calls on the kernel service, as opposed to console output. *)
Definition is_call (e : Event) : bool :=
  match e with Log _ => false | _ => true end.

(** The kernels of the execute requests, in the order they were sent. *)
Definition executed (evs : list Event) : list IKernel :=
  omap (λ e, match e with CallRequestExecute k _ => Some k | _ => None end) evs.

(** The kernels that were shut down. *)
Definition shut_down (evs : list Event) : list IKernel :=
  omap (λ e, match e with CallShutdown k => Some k | _ => None end) evs.

(** The kernels [Kernel.startNew] handed to the widget. *)
Definition delivered (inputs : list Input) : list IKernel :=
  omap (λ i, match i with KernelSettled _ (Fulfilled k) _ => Some k | _ => None end)
       inputs.

(** Whether the task [i] reaches line 217 in the state [w]. *)
Definition reaches_execute (w : Widget) (i : Input) : bool :=
  match i with
  | KernelSettled r (Fulfilled _) _ =>
      match runs w !! r with Some (AwaitKernel _) => true | _ => false end
  | _ => false
  end.

(** A run that no task can move any more. *)
Definition finished (s : Stage) : bool :=
  match s with
  | ShutDown _ | ShutdownRejected _ _ | DoneRejected _ _ | Aborted _ => true
  | _ => false
  end.

(** ** Sample data *)

Definition python3 : IKernel := {| kernel_id := "k-1"; kernel_name := "python3" |}.

Definition specs1 : ISpecModels :=
  {| specs_default := "python3";
     kernelspecs :=
       [("python3", {| spec_name := "python3"; display_name := "Python 3" |});
        ("ir", {| spec_name := "ir"; display_name := "R" |})] |}.

Definition stream (name text : string) : IMessage :=
  {| msg_type := "stream"; channel := "iopub";
     content := {[ "name" := JStr name; "text" := JStr text ]} |}.

Definition error_msg (ename evalue : string) : IMessage :=
  {| msg_type := "error"; channel := "iopub";
     content := {[ "ename" := JStr ename; "evalue" := JStr evalue ]} |}.

Definition status_msg (state : string) : IMessage :=
  {| msg_type := "status"; channel := "iopub";
     content := {[ "execution_state" := JStr state ]} |}.

(** One run from the click to the execute request. *)
Definition launch (r : nat) (k : IKernel) : list Input :=
  [Click; SpecsSettled r (Fulfilled specs1); KernelSettled r (Fulfilled k) ReturnsFuture].

(** ** Views of a run, scenarios and proof automation *)

(** Case analysis on a task and on the stage of the run it belongs to. *)
Ltac step_cases w i :=
  destruct i as [v| |r o|r o x|r m|r o|r o]; simpl;
  try (destruct (runs w !! r) as [[]|] eqn:Hr; simpl);
  try (destruct o; simpl);
  try (destruct x; simpl).

(** The stage a run moves to when one of its own tasks is run. *)
Definition next_stage (s : Stage) (i : Input) : Stage :=
  match s, i with
  | AwaitSpecs code, SpecsSettled _ o => (after_getSpecs code o).1
  | AwaitKernel code, KernelSettled _ o x => (after_startKernel code o x).1
  | InFlight k, DoneSettled _ o => (after_done k o).1
  | AwaitShutdown k, ShutdownSettled _ o => (after_shutdown k o).1
  | _, _ => s
  end.

(** What a run does when one of its own tasks is run. *)
Definition run_events (s : Stage) (i : Input) : list Event :=
  match s, i with
  | AwaitSpecs code, SpecsSettled _ o => (after_getSpecs code o).2
  | AwaitKernel code, KernelSettled _ o x => (after_startKernel code o x).2
  | InFlight k, DoneSettled _ o => (after_done k o).2
  | AwaitShutdown k, ShutdownSettled _ o => (after_shutdown k o).2
  | _, IOPub _ m => if handler_installed s then onIOPub m else []
  | _, _ => []
  end.

(** The tasks of run [r] when every collaborator answers: the click, the
    specs, the kernel, the messages of the future and its completion. *)
Definition whole_run (r : nat) (specs : ISpecModels) (kernel : IKernel)
    (msgs : list IMessage) : list Input :=
  [Click; SpecsSettled r (Fulfilled specs);
   KernelSettled r (Fulfilled kernel) ReturnsFuture]
  ++ (IOPub r <$> msgs) ++ [DoneSettled r (Fulfilled ())].

Definition closing_widget : Widget :=
  final (init (JStr "1+1")) (whole_run 0 specs1 python3 []).

(** An error, then output, then the completion, then output again. *)
Definition late_output : list Input :=
  [IOPub 0 (error_msg "NameError" "x");
   IOPub 0 (stream "stdout" "late");
   DoneSettled 0 (Fulfilled ());
   IOPub 0 (stream "stdout" "later")].

(** The widget with one execution in flight. *)
Definition running_widget : Widget :=
  final (init (JStr "1/0")) (launch 0 python3).

(** A run that has got past the start of its kernel. *)
Definition past_kernel (s : Stage) : bool :=
  match s with AwaitSpecs _ | AwaitKernel _ => false | _ => true end.

(** A second kernel of the same spec. *)
Definition python3' : IKernel := {| kernel_id := "k-2"; kernel_name := "python3" |}.

(** Two runs on two kernels, the second started before the first ends. *)
Definition two_runs : list Input :=
  launch 0 python3 ++ launch 1 python3'
  ++ [DoneSettled 1 (Fulfilled ()); DoneSettled 0 (Fulfilled ())].

(** ** Accounting of the calls on the kernel service *)

(** How many elements of a list satisfy a test. *)
Fixpoint count {A : Type} (P : A → bool) (l : list A) : nat :=
  match l with
  | [] => 0
  | x :: rest => (if P x then 1 else 0) + count P rest
  end.

Definition is_click (i : Input) : bool :=
  match i with Click => true | _ => false end.

Definition is_getSpecs (e : Event) : bool :=
  match e with CallGetSpecs => true | _ => false end.

Definition is_startNew (e : Event) : bool :=
  match e with CallStartNew _ => true | _ => false end.

Definition is_requestExecute (e : Event) : bool :=
  match e with CallRequestExecute _ _ => true | _ => false end.

Definition is_shutdown (e : Event) : bool :=
  match e with CallShutdown _ => true | _ => false end.

Definition awaiting_specs (s : Stage) : bool :=
  match s with AwaitSpecs _ => true | _ => false end.

Definition awaiting_kernel (s : Stage) : bool :=
  match s with AwaitKernel _ => true | _ => false end.

Definition in_flight (s : Stage) : bool :=
  match s with InFlight _ => true | _ => false end.

(** A task that does not belong to run [r]: an edit, a click, or a task
    of another run. *)
Definition foreign (r : nat) (i : Input) : Prop := input_run i ≠ Some r.

(** ** Stale selections ([FileEditorCodeWrapper._onCollaboratorsChanged]) *)

(** [selections.keys()]: the keys at the time of the call. *)
Definition selection_keys {V : Type} (selections : gmap string V) : list string :=
  (map_to_list selections).*1.

(** Lines 141-153.  [collaborators] is the collaborator map of the model
    database, of which only [has] is used, or nothing when the database
    has none; [selections] is the selection map of the editor model. *)
Definition _onCollaboratorsChanged {V : Type}
    (collaborators : option (gset string)) (selections : gmap string V)
  : gmap string V :=
  match collaborators with
  | None => selections
  | Some c =>
      foldl (λ sel key, if bool_decide (key ∈ c) then sel else delete key sel)
            selections (selection_keys selections)
  end.

(** ** Focus, DOM events and the path ([FileEditor]) *)

(** The part of [CodeEditor.IEditor] the widget uses for the focus. *)
Class IEditor (E : Type) := {
  hasFocus : E → bool;
  focus : E → E
}.

(** [IEditorMimeTypeService]. *)
Class IEditorMimeTypeService := {
  getMimeTypeByFilePath : string → string
}.

(** The state of a [FileEditor] that these methods read and write. *)
Record FileEditor (E : Type) := {
  model_present : bool;        (* this.model is set *)
  editor : E;                  (* this.editor *)
  listening : gset string;     (* event types the widget listens to on its node *)
  localPath : string;          (* this._context.localPath *)
  mimeType : string            (* this.editor.model.mimeType *)
}.
Arguments model_present {E} _.
Arguments editor {E} _.
Arguments listening {E} _.
Arguments localPath {E} _.
Arguments mimeType {E} _.

(** [editor.focus()]. *)
Inductive EditorCall := CallFocus.

Definition with_editor {E} (w : FileEditor E) (e : E) : FileEditor E :=
  {| model_present := model_present w; editor := e; listening := listening w;
     localPath := localPath w; mimeType := mimeType w |}.

Definition with_listening {E} (w : FileEditor E) (l : gset string) : FileEditor E :=
  {| model_present := model_present w; editor := editor w; listening := l;
     localPath := localPath w; mimeType := mimeType w |}.

(** Lines 341-345. *)
Definition _ensureFocus `{IEditor E} (w : FileEditor E)
  : FileEditor E * list EditorCall :=
  if negb (hasFocus (editor w))
  then (with_editor w (focus (editor w)), [CallFocus])
  else (w, []).

(** Lines 301-312. *)
Definition handleEvent `{IEditor E} (w : FileEditor E) (type : string)
  : FileEditor E * list EditorCall :=
  if negb (model_present w) then (w, [])
  else if bool_decide (type = "mousedown") then _ensureFocus w
  else (w, []).

(** Lines 317-321: listeners are a set, a second registration of the
    same listener is discarded. *)
Definition onAfterAttach {E} (w : FileEditor E) : FileEditor E :=
  with_listening w (listening w ∪ {["mousedown"]}).

(** Lines 326-329. *)
Definition onBeforeDetach {E} (w : FileEditor E) : FileEditor E :=
  with_listening w (listening w ∖ {["mousedown"]}).

(** Lines 334-336. *)
Definition onActivateRequest `{IEditor E} (w : FileEditor E)
  : FileEditor E * list EditorCall :=
  _ensureFocus w.

(** Lines 350-357. *)
Definition _onPathChanged `{IEditorMimeTypeService} {E} (w : FileEditor E)
  : FileEditor E :=
  {| model_present := model_present w; editor := editor w;
     listening := listening w; localPath := localPath w;
     mimeType := getMimeTypeByFilePath (localPath w) |}.

(** The constructor, as far as this state goes (lines 172-181): the
    model is set, nothing is listened to, and [_onPathChanged] is run
    once. *)
Definition new_FileEditor `{IEditorMimeTypeService} {E}
    (e : E) (path initialMimeType : string) : FileEditor E :=
  _onPathChanged {| model_present := true; editor := e; listening := ∅;
                    localPath := path; mimeType := initialMimeType |}.

(** What reaches the widget: messages of the widget framework, DOM
    events on its node, renames of the document (the [pathChanged]
    signal, connected at line 180), and changes of the editor from
    outside, such as the user moving the focus elsewhere. *)
Inductive WidgetInput (E : Type) :=
| AfterAttach
| BeforeDetach
| ActivateRequest
| DomEvent (type : string)
| PathChanged (path : string)
| EditorBecomes (e : E).
Arguments AfterAttach {E}.
Arguments BeforeDetach {E}.
Arguments ActivateRequest {E}.
Arguments DomEvent {E} type.
Arguments PathChanged {E} path.
Arguments EditorBecomes {E} e.

Definition widget_step `{IEditor E} `{IEditorMimeTypeService}
    (w : FileEditor E) (i : WidgetInput E) : FileEditor E * list EditorCall :=
  match i with
  | AfterAttach => (onAfterAttach w, [])
  | BeforeDetach => (onBeforeDetach w, [])
  | ActivateRequest => onActivateRequest w
  | DomEvent type =>
      if bool_decide (type ∈ listening w) then handleEvent w type else (w, [])
  | PathChanged path =>
      (_onPathChanged {| model_present := model_present w; editor := editor w;
                         listening := listening w; localPath := path;
                         mimeType := mimeType w |}, [])
  | EditorBecomes e => (with_editor w e, [])
  end.

Fixpoint widget_exec `{IEditor E} `{IEditorMimeTypeService}
    (w : FileEditor E) (inputs : list (WidgetInput E))
  : FileEditor E * list EditorCall :=
  match inputs with
  | [] => (w, [])
  | i :: rest =>
      let '(w1, c1) := widget_step w i in
      let '(w2, c2) := widget_exec w1 rest in
      (w2, c1 ++ c2)
  end.

(** An editor that only knows whether it has the focus. *)
#[global] Instance bool_editor : IEditor bool :=
  {| hasFocus := λ b, b; focus := λ _, true |}.

(** A mime type service that goes by the extension. *)
#[global] Instance by_extension : IEditorMimeTypeService :=
  {| getMimeTypeByFilePath := λ p,
       if String.eqb (String.substring (String.length p - 3) 3 p) ".py"
       then "text/x-python" else "text/plain" |}.

(** ** The session layer, after the specification *)

(** The kernel connection that widget.ts calls, [kernel.requestExecute],
    [kernel.shutdown] and the future with its message dispatch, belongs
    to @jupyterlab/services and is not among the sources.  This module
    follows what sections 3, 4.3 to 4.5, 7 and 8 of the specification
    say of it. *)
Module Session.

(** Modelled from the spec: the error taxonomy of section 7; the
    connection of @jupyterlab/services that raises the errors is
    missing. *)
Inductive Error :=
| SpecUnavailable
| LaunchFailure (reason : string)
| InvalidArgument
| SessionBusy
| SessionClosed
| TeardownFailure
| TransportError.

(** Modelled from the spec: the states of a session handle (state
    machine of section 4.5); the handle of @jupyterlab/services is
    missing. *)
Inductive State :=
| Connecting
| Ready
| Executing        (* one execution future is outstanding *)
| Closing
| Closed
| Unknown.

(** Modelled from the spec: the [code] argument of [execute] as it
    arrives at run time (section 4.3); [requestExecute] is missing. *)
Inductive CodeArg :=
| UndefinedCode
| NullCode
| Code (s : string).

(** Modelled from the spec: what goes over the session transport
    (sections 4.3 and 6); the transport of @jupyterlab/services is
    missing. *)
Inductive TransportMessage :=
| ExecuteRequest (code : string)
| ShutdownRequest.

(** Modelled from the spec: the output messages of section 3; the
    message types of @jupyterlab/services are missing. *)
Inductive OutputMessage :=
| StreamOutput (stderr : bool) (text : string)
| ErrorOutput
| ExecutionComplete.

(** Modelled from the spec: the terminal messages of section 4.4,
    execution-complete and error; the future of @jupyterlab/services is
    missing. *)
Definition terminal (m : OutputMessage) : bool :=
  match m with
  | ErrorOutput | ExecutionComplete => true
  | StreamOutput _ _ => false
  end.

(** Modelled from the spec: a session handle (section 3) with the
    messages sent over its transport so far; the handle of
    @jupyterlab/services is missing. *)
Record Handle := {
  state : State;
  transport : list TransportMessage
}.

(** Modelled from the spec: the outcome of an operation of sections 4.3
    and 4.5, with [Unspecified] where the specification names neither
    a result nor an error; the operations of @jupyterlab/services are
    missing. *)
Inductive Result :=
| Ok (h : Handle)
| Fail (e : Error)
| Unspecified.

(** Modelled from the spec: [execute] of section 4.3, in place of the
    missing [kernel.requestExecute].  A null or undefined code fails
    with [InvalidArgument] on every handle; otherwise a ready handle
    sends one execute request and has a future outstanding, a handle
    with a future outstanding fails fast with [SessionBusy], and a
    closed handle fails with [SessionClosed]. *)
Definition execute (h : Handle) (code : CodeArg) : Result :=
  match code with
  | UndefinedCode | NullCode => Fail InvalidArgument
  | Code c =>
      match state h with
      | Ready =>
          Ok {| state := Executing;
                transport := transport h ++ [ExecuteRequest c] |}
      | Executing => Fail SessionBusy
      | Closed => Fail SessionClosed
      | Connecting | Closing | Unknown => Unspecified
      end
  end.

(** Modelled from the spec: the delivery of one message to the handler
    subscribed to the outstanding future (section 4.4), in place of the
    missing dispatch of the future.  The handler receives the messages
    up to the terminal one, which ends the future; with no future
    outstanding nothing is delivered.  The second component lists the
    invocations of the handler. *)
Definition deliver (h : Handle) (m : OutputMessage)
  : Handle * list OutputMessage :=
  match state h with
  | Executing =>
      (if terminal m then {| state := Ready; transport := transport h |} else h,
       [m])
  | _ => (h, [])
  end.

(** Modelled from the spec: the request of [shutdown] (section 4.5), in
    place of the missing [kernel.shutdown].  A ready handle sends the
    request and is closing; a closed handle succeeds without side
    effects (the choice offered in section 8). *)
Definition shutdown (h : Handle) : Result :=
  match state h with
  | Ready =>
      Ok {| state := Closing; transport := transport h ++ [ShutdownRequest] |}
  | Closed => Ok h
  | Connecting | Executing | Closing | Unknown => Unspecified
  end.

(** Modelled from the spec: the answer of the backend to a shutdown
    request (section 4.5), in place of the missing promise of
    [kernel.shutdown]: acceptance closes the handle, rejection fails
    with [TeardownFailure] and leaves it in the unknown state. *)
Definition shutdown_settled (h : Handle) (accepted : bool)
  : Handle * option Error :=
  match state h with
  | Closing =>
      if accepted
      then ({| state := Closed; transport := transport h |}, None)
      else ({| state := Unknown; transport := transport h |}, Some TeardownFailure)
  | _ => (h, None)
  end.

(** Modelled from the spec: what a caller and the backend can do with a
    handle (sections 4.3 to 4.5); the connection of
    @jupyterlab/services is missing. *)
Inductive Call :=
| DoExecute (code : CodeArg)
| DoDeliver (m : OutputMessage)
| DoShutdown
| DoShutdownSettled (accepted : bool).

(** Modelled from the spec: the handle after one call, unchanged when
    the call fails (sections 4.3 to 4.5); the connection of
    @jupyterlab/services is missing. *)
Definition after (h : Handle) (c : Call) : Handle :=
  match c with
  | DoExecute code => match execute h code with Ok h' => h' | _ => h end
  | DoDeliver m => (deliver h m).1
  | DoShutdown => match shutdown h with Ok h' => h' | _ => h end
  | DoShutdownSettled accepted => (shutdown_settled h accepted).1
  end.

(** Modelled from the spec: the handle after a sequence of calls; the
    connection of @jupyterlab/services is missing. *)
Definition after_all (h : Handle) (calls : list Call) : Handle :=
  foldl after h calls.

(** Modelled from the spec: whether [execute] accepts the call (section
    4.3); [kernel.requestExecute] is missing. *)
Definition accepted (h : Handle) (code : CodeArg) : bool :=
  match execute h code with Ok _ => true | _ => false end.



(** Modelled from the spec: a handle as [start] returns it, connected
    and ready, with nothing sent yet (section 4.2 and the first
    scenario of section 8); [Kernel.startNew] is missing. *)
Definition fresh : Handle := {| state := Ready; transport := [] |}.

End Session.

(** ** The widget with the kernel launcher *)

(** Modelled from the spec: [Kernel.startNew] of @jupyterlab/services,
    which [startKernel] calls at line 248, is missing.  Sections 2 and 3
    have the session launcher start a new kernel session at every call
    and give its handle an identity and a name: the [n]-th session
    started gets the identity [n] and the name that was asked for. *)
Definition new_kernel (n : nat) (options : IOptions) : IKernel :=
  {| kernel_id := pretty n; kernel_name := opt_name options |}.

(** The widget together with the launcher: the sessions started so far
    and the start calls of the widget that are not answered yet, by
    run. *)
Record World := {
  widget : Widget;
  sessions : nat;
  start_calls : gmap nat IOptions
}.

Definition init_world (t : JsVal) : World :=
  {| widget := init t; sessions := 0; start_calls := ∅ |}.

(** The tasks of the event loop when the launcher is part of the
    picture: the answer to a start call comes from the launcher, every
    other task is as before. *)
Inductive Task :=
| Pass (i : Input)
| Started (r : nat) (x : ExecReturn)
| StartFailed (r : nat) (e : Reason).

(** The options of the start calls, in the order they were made. *)
Definition started (evs : list Event) : list IOptions :=
  omap (λ e, match e with CallStartNew o => Some o | _ => None end) evs.

(** The task of the widget that a task of the world amounts to.  A
    start is answered only if the widget has called for it, and a kernel
    reaches the widget in no other way. *)
Definition world_input (W : World) (t : Task) : option Input :=
  match t with
  | Pass (KernelSettled _ _ _) => None
  | Pass i => Some i
  | Started r x =>
      match start_calls W !! r with
      | Some options =>
          Some (KernelSettled r (Fulfilled (new_kernel (sessions W) options)) x)
      | None => None
      end
  | StartFailed r e =>
      match start_calls W !! r with
      | Some _ => Some (KernelSettled r (Rejected e) ReturnsFuture)
      | None => None
      end
  end.

(** The start calls left once a task has answered one. *)
Definition answered (t : Task) (calls : gmap nat IOptions) : gmap nat IOptions :=
  match t with
  | Started r _ | StartFailed r _ => delete r calls
  | Pass _ => calls
  end.

(** The start calls once those of a task of the widget are added. *)
Definition recorded (i : Input) (evs : list Event) (calls : gmap nat IOptions)
  : gmap nat IOptions :=
  match input_run i, started evs with
  | Some r, options :: _ => <[r := options]> calls
  | _, _ => calls
  end.

Definition world_step (W : World) (t : Task) : World * list Event :=
  match world_input W t with
  | None => (W, [])
  | Some i =>
      let '(w', evs) := step (widget W) i in
      ({| widget := w';
          sessions := match t with
                      | Started _ _ => S (sessions W)
                      | _ => sessions W
                      end;
          start_calls := recorded i evs (answered t (start_calls W)) |},
       evs)
  end.

Fixpoint world_exec (W : World) (tasks : list Task) : World * list Event :=
  match tasks with
  | [] => (W, [])
  | t :: rest =>
      let '(W1, evs1) := world_step W t in
      let '(W2, evs2) := world_exec W1 rest in
      (W2, evs1 ++ evs2)
  end.

Definition world_trace (W : World) (tasks : list Task) : list Event :=
  (world_exec W tasks).2.

Definition world_final (W : World) (tasks : list Task) : World :=
  (world_exec W tasks).1.

(** The tasks of the widget that a sequence of tasks of the world
    amounts to. *)
Fixpoint world_inputs (W : World) (tasks : list Task) : list Input :=
  match tasks with
  | [] => []
  | t :: rest =>
      match world_input W t with Some i => [i] | None => [] end
      ++ world_inputs (world_step W t).1 rest
  end.

(** The tasks of run [r] when every collaborator answers. *)
Definition world_whole_run (r : nat) (specs : ISpecModels)
    (msgs : list IMessage) : list Task :=
  [Pass Click; Pass (SpecsSettled r (Fulfilled specs)); Started r ReturnsFuture]
  ++ (Pass <$> ((IOPub r <$> msgs) ++ [DoneSettled r (Fulfilled ())])).

Definition is_kernel_settlement (i : Input) : bool :=
  match i with KernelSettled _ _ _ => true | _ => false end.

(** Two clicks, the second run overtaking the first. *)
Definition two_world_runs : list Task :=
  [Pass Click; Pass Click;
   Pass (SpecsSettled 1 (Fulfilled specs1)); Pass (SpecsSettled 0 (Fulfilled specs1));
   Started 1 ReturnsFuture; Started 0 ReturnsFuture;
   Pass (DoneSettled 0 (Fulfilled ())); Pass (DoneSettled 1 (Fulfilled ()))].


(** * Properties *)

(** ** Sequences of tasks *)

Lemma trace_cons w i rest :
  trace w (i :: rest) = (step w i).2 ++ trace (step w i).1 rest.
Proof.
  unfold trace. simpl. destruct (step w i) as [w1 e1]. simpl.
  destruct (exec w1 rest) as [w2 e2]. reflexivity.
Qed.

Lemma final_cons w i rest :
  final w (i :: rest) = final (step w i).1 rest.
Proof.
  unfold final. simpl. destruct (step w i) as [w1 e1]. simpl.
  destruct (exec w1 rest) as [w2 e2]. reflexivity.
Qed.

Lemma trace_app w a b :
  trace w (a ++ b) = trace w a ++ trace (final w a) b.
Proof.
  revert w. induction a as [|i a IH]; intros w.
  - reflexivity.
  - rewrite <- app_comm_cons, !trace_cons, final_cons, IH, app_assoc. reflexivity.
Qed.

Lemma final_app w a b : final w (a ++ b) = final (final w a) b.
Proof.
  revert w. induction a as [|i a IH]; intros w.
  - reflexivity.
  - rewrite <- app_comm_cons, !final_cons. apply IH.
Qed.

(** ** The handler *)

Lemma onIOPub_cases m :
  onIOPub m = [] ∨
  onIOPub m = [log1 ("Output:" +:+ LF +:+ toStr (get "text" (content m)))].
Proof. unfold onIOPub. destruct (_ && _); auto. Qed.

Lemma onIOPub_no_call m e : e ∈ onIOPub m → is_call e = false.
Proof.
  destruct (onIOPub_cases m) as [-> | ->].
  - intros H. inversion H.
  - intros H. apply list_elem_of_singleton in H. subst. reflexivity.
Qed.

(** ** What one task can do *)

(** A start request is sent only by a run whose spec query resolved, and
    names the default of the specs it got. *)
Lemma step_startNew_inv w i opts :
  CallStartNew opts ∈ (step w i).2 →
  ∃ r code specs,
    i = SpecsSettled r (Fulfilled specs) ∧
    runs w !! r = Some (AwaitSpecs code) ∧
    opts = {| opt_name := specs_default specs |}.
Proof.
  step_cases w i; intros H;
    try (apply onIOPub_no_call in H; discriminate);
    repeat (apply elem_of_cons in H as [H|H]; try discriminate);
    try (by inversion H).
  inversion H; subst. eauto 10.
Qed.

(** An execute request is sent only by a run whose kernel just started,
    on that kernel and with the code the run holds. *)
Lemma step_execute_inv w i k c :
  CallRequestExecute k c ∈ (step w i).2 →
  ∃ r x,
    i = KernelSettled r (Fulfilled k) x ∧
    runs w !! r = Some (AwaitKernel c).
Proof.
  step_cases w i; intros H;
    try (apply onIOPub_no_call in H; discriminate);
    repeat (apply elem_of_cons in H as [H|H]; try discriminate);
    try (by inversion H);
    inversion H; subst; eauto 10.
Qed.

(** A shutdown is requested only by a run whose future just completed,
    on the kernel of that run. *)
Lemma step_shutdown_inv w i k :
  CallShutdown k ∈ (step w i).2 →
  ∃ r, i = DoneSettled r (Fulfilled ()) ∧ runs w !! r = Some (InFlight k).
Proof.
  step_cases w i; intros H;
    try (apply onIOPub_no_call in H; discriminate);
    repeat (apply elem_of_cons in H as [H|H]; try discriminate);
    try (by inversion H).
  inversion H; subst. destruct a. eauto 10.
Qed.

(** ** How the stage of a run evolves *)

Lemma step_stage w i r s :
  runs w !! r = Some s →
  runs (step w i).1 !! r =
    Some (if decide (input_run i = Some r) then next_stage s i else s).
Proof.
  intros Hs. pose proof (lookup_lt_Some _ _ _ Hs) as Hlt.
  destruct i as [v| |r0 o|r0 o x|r0 m|r0 o|r0 o]; simpl.
  1: done.
  1: by apply lookup_app_l_Some.
  all: destruct (decide (Some r0 = Some r)) as [[= ->]|Hne].
  all: try (rewrite Hs; destruct s; simpl; try done;
            try (destruct o; simpl); try (destruct x; simpl);
            by rewrite ?list_lookup_insert_eq).
  all: assert (r0 ≠ r) by congruence.
  all: destruct (runs w !! r0) as [[]|]; simpl; try done;
       try (destruct o; simpl); try (destruct x; simpl);
       try (by rewrite list_lookup_insert_ne);
       try (by destruct (handler_installed _)).
Qed.

Lemma next_stage_finished s i : finished s = true → next_stage s i = s.
Proof. destruct s, i; simpl; done. Qed.

Lemma next_stage_handler s i :
  handler_installed s = true → handler_installed (next_stage s i) = true.
Proof.
  destruct s, i; simpl; try done; destruct o; simpl; done.
Qed.

(** A finished run stays as it is, whatever happens next. *)
Lemma final_finished w r s inputs :
  runs w !! r = Some s → finished s = true →
  runs (final w inputs) !! r = Some s.
Proof.
  revert w. induction inputs as [|i rest IH]; intros w Hs Hf.
  - exact Hs.
  - rewrite final_cons. apply IH; [|done].
    rewrite (step_stage _ _ _ _ Hs).
    destruct (decide _); [by rewrite next_stage_finished|done].
Qed.

(** The handler, once installed, is installed for good. *)
Lemma final_handler w r s inputs :
  runs w !! r = Some s → handler_installed s = true →
  ∃ s', runs (final w inputs) !! r = Some s' ∧ handler_installed s' = true.
Proof.
  revert w s. induction inputs as [|i rest IH]; intros w s Hs Hh.
  - eauto.
  - rewrite final_cons. eapply IH.
    + by apply step_stage.
    + destruct (decide _); [by apply next_stage_handler|done].
Qed.

(** The tasks of a finished run issue no call on the kernel service. *)
Lemma step_finished_quiet w i r s :
  runs w !! r = Some s → finished s = true → input_run i = Some r →
  ∀ e, e ∈ (step w i).2 → is_call e = false.
Proof.
  intros Hs Hf Hi e.
  destruct i as [v| |r0 o|r0 o x|r0 m|r0 o|r0 o]; simpl in *;
    try discriminate; injection Hi as ->; rewrite Hs;
    destruct s; simpl in *; try discriminate;
    try (intros H; by inversion H);
    apply onIOPub_no_call.
Qed.

Lemma step_events w i r s :
  runs w !! r = Some s → input_run i = Some r →
  (step w i).2 = run_events s i.
Proof.
  intros Hs Hi.
  destruct i as [v| |r0 o|r0 o x|r0 m|r0 o|r0 o]; simpl in *;
    try discriminate; injection Hi as ->; rewrite Hs;
    destruct s; simpl; try done;
    try (destruct o; simpl; try done); try (destruct x; simpl; done).
Qed.

Lemma click_stage w :
  runs (step w Click).1 !! length (runs w) = Some (AwaitSpecs (text w)).
Proof. simpl. apply list_lookup_middle. reflexivity. Qed.

(** Messages dispatched to an installed handler are handled one by one,
    in the order of dispatch, and change nothing in the widget. *)
Lemma exec_iopub w r s msgs :
  runs w !! r = Some s → handler_installed s = true →
  exec w (IOPub r <$> msgs) = (w, mjoin (onIOPub <$> msgs)).
Proof.
  intros Hs Hh. induction msgs as [|m msgs IH]; [reflexivity|].
  assert (step w (IOPub r m) = (w, onIOPub m)) as Hstep
    by (simpl; by rewrite Hs, Hh).
  rewrite fmap_cons. cbn [exec]. rewrite Hstep, IH. reflexivity.
Qed.

Lemma step_own w i r s :
  runs w !! r = Some s → input_run i = Some r →
  (step w i).2 = run_events s i ∧
  runs (step w i).1 !! r = Some (next_stage s i).
Proof.
  intros Hs Hi. split; [by apply (step_events w i r)|].
  rewrite (step_stage _ _ _ _ Hs). by rewrite decide_True.
Qed.

(** ** The control flow of one run *)

Lemma whole_run_exec w specs kernel msgs :
  trace w (whole_run (length (runs w)) specs kernel msgs) =
    [log1 ("Code: " +:+ toStr (text w)); CallGetSpecs;
     Log [LVal (JStr "Default spec:"); LVal (JStr (specs_default specs))];
     Log [LVal (JStr "Available specs:"); LArr (Object_keys (kernelspecs specs))];
     CallStartNew {| opt_name := specs_default specs |};
     CallRequestExecute kernel (text w)]
    ++ mjoin (onIOPub <$> msgs)
    ++ [log1 ("Done. Shutting down " +:+ kernel_name kernel +:+ " kernel...");
        CallShutdown kernel]
  ∧ runs (final w (whole_run (length (runs w)) specs kernel msgs))
      !! length (runs w) = Some (AwaitShutdown kernel).
Proof.
  set (r := length (runs w)). unfold whole_run.
  pose proof (click_stage w) as H0. fold r in H0.
  set (w1 := (step w Click).1) in *.
  destruct (step_own w1 (SpecsSettled r (Fulfilled specs)) r _ H0 eq_refl)
    as [E1 H1].
  set (w2 := (step w1 _).1) in *.
  destruct (step_own w2 (KernelSettled r (Fulfilled kernel) ReturnsFuture) r _
              H1 eq_refl) as [E2 H2].
  set (w3 := (step w2 _).1) in *.
  pose proof (exec_iopub w3 r _ msgs H2 eq_refl) as E3.
  destruct (step_own w3 (DoneSettled r (Fulfilled ())) r _ H2 eq_refl)
    as [E4 H4].
  cbn [run_events next_stage after_getSpecs after_startKernel after_done
       shutDownKernel fst snd] in *.
  assert (final w3 (IOPub r <$> msgs) = w3) as F3 by (unfold final; by rewrite E3).
  assert (trace w3 (IOPub r <$> msgs) = mjoin (onIOPub <$> msgs)) as T3
    by (unfold trace; by rewrite E3).
  split.
  - rewrite <- !app_comm_cons, app_nil_l.
    rewrite trace_cons. fold w1. rewrite trace_cons, E1. fold w2.
    rewrite trace_cons, E2. fold w3.
    rewrite trace_app, T3, F3, trace_cons, E4. simpl.
    unfold trace. simpl. reflexivity.
  - rewrite <- !app_comm_cons, app_nil_l.
    rewrite final_cons. fold w1. rewrite final_cons. fold w2.
    rewrite final_cons. fold w3.
    rewrite final_app, F3, final_cons. exact H4.
Qed.

(** C1. Every run of the code-run operation follows the same order: it
    resolves the kernel specs, starts a session named by the resolved
    default, submits exactly the editor's code on that session, hands
    the messages of the future to the handler while the execution is in
    flight, and requests the shutdown of the session when the future
    completes.  Conversely no task sends a start, execute or shutdown
    request out of that order. *)
Theorem C1_control_flow :
  (∀ w specs kernel msgs,
     trace w (whole_run (length (runs w)) specs kernel msgs) =
       [log1 ("Code: " +:+ toStr (text w)); CallGetSpecs;
        Log [LVal (JStr "Default spec:"); LVal (JStr (specs_default specs))];
        Log [LVal (JStr "Available specs:");
             LArr (Object_keys (kernelspecs specs))];
        CallStartNew {| opt_name := specs_default specs |};
        CallRequestExecute kernel (text w)]
       ++ mjoin (onIOPub <$> msgs)
       ++ [log1 ("Done. Shutting down " +:+ kernel_name kernel +:+ " kernel...");
           CallShutdown kernel])
  ∧ (∀ w i opts, CallStartNew opts ∈ (step w i).2 →
       ∃ r code specs, i = SpecsSettled r (Fulfilled specs) ∧
         runs w !! r = Some (AwaitSpecs code) ∧
         opts = {| opt_name := specs_default specs |})
  ∧ (∀ w i k c, CallRequestExecute k c ∈ (step w i).2 →
       ∃ r x, i = KernelSettled r (Fulfilled k) x ∧
         runs w !! r = Some (AwaitKernel c))
  ∧ (∀ w i k, CallShutdown k ∈ (step w i).2 →
       ∃ r, i = DoneSettled r (Fulfilled ()) ∧ runs w !! r = Some (InFlight k)).
Proof.
  split; [|split; [|split]].
  - intros. apply whole_run_exec.
  - apply step_startNew_inv.
  - apply step_execute_inv.
  - apply step_shutdown_inv.
Qed.

Lemma C1_witness :
  trace (init (JStr "print(1)"))
        (whole_run 0 specs1 python3 [stream "stdout" "1"; status_msg "idle"]) =
    [log1 "Code: print(1)"; CallGetSpecs;
     Log [LVal (JStr "Default spec:"); LVal (JStr "python3")];
     Log [LVal (JStr "Available specs:"); LArr ["python3"; "ir"]];
     CallStartNew {| opt_name := "python3" |};
     CallRequestExecute python3 (JStr "print(1)");
     log1 ("Output:" +:+ LF +:+ "1");
     log1 "Done. Shutting down python3 kernel...";
     CallShutdown python3] ∧
  ∃ r, DoneSettled 0 (Fulfilled ()) = DoneSettled r (Fulfilled ()) ∧
       runs running_widget !! r = Some (InFlight python3).
Proof.
  destruct C1_control_flow as (Hflow & _ & _ & Hshut).
  split.
  - rewrite (Hflow (init (JStr "print(1)")) specs1 python3). vm_compute.
    reflexivity.
  - apply Hshut. apply (bool_decide_unpack _). vm_compute. reflexivity.
Defined.

(** ** The handler surfaces standard output only *)

Lemma onIOPub_spec m :
  onIOPub m =
    if bool_decide (content m !! "name" = Some (JStr "stdout"))
    then [log1 ("Output:" +:+ LF +:+ toStr (get "text" (content m)))]
    else [].
Proof.
  unfold onIOPub, has_key, get, strict_eq.
  destruct (content m !! "name") as [v|] eqn:Hn; simpl.
  - destruct (decide (v = JStr "stdout")) as [->|Hne].
    + by rewrite !bool_decide_true.
    + rewrite (bool_decide_false (v = JStr "stdout")) by done.
      by rewrite bool_decide_false by congruence.
  - reflexivity.
Qed.

Lemma step_iopub_dropped w r m :
  content m !! "name" ≠ Some (JStr "stdout") → step w (IOPub r m) = (w, []).
Proof.
  intros Hn. simpl. rewrite onIOPub_spec, bool_decide_false by done.
  destruct (runs w !! r) as [s|]; [|done].
  by destruct (handler_installed s).
Qed.

(** C10. The IOPub handler installed by the code-run operation logs a
    message exactly when its content has a [name] field equal to
    "stdout", and then logs the text of that message.  Every other
    message, stream output on stderr and kernel error messages among
    them, is dropped: the task that handles it logs nothing, calls
    nothing and leaves the widget as it was. *)
Theorem C10_only_stdout_is_surfaced :
  (∀ m, onIOPub m =
     if bool_decide (content m !! "name" = Some (JStr "stdout"))
     then [log1 ("Output:" +:+ LF +:+ toStr (get "text" (content m)))]
     else [])
  ∧ (∀ w r t, step w (IOPub r (stream "stderr" t)) = (w, []))
  ∧ (∀ w r ename evalue, step w (IOPub r (error_msg ename evalue)) = (w, [])).
Proof.
  split; [exact onIOPub_spec|split].
  - intros. apply step_iopub_dropped. unfold stream. simpl.
    rewrite lookup_insert_eq. congruence.
  - intros. apply step_iopub_dropped. unfold error_msg. simpl.
    rewrite lookup_insert_ne by done. by rewrite lookup_singleton_ne.
Qed.

(** A finished run keeps its stage and its later tasks call nothing. *)
Lemma finished_forever w r s :
  runs w !! r = Some s → finished s = true →
  ∀ inputs,
    runs (final w inputs) !! r = Some s ∧
    ∀ i e, input_run i = Some r →
           e ∈ (step (final w inputs) i).2 → is_call e = false.
Proof.
  intros Hs Hf inputs.
  pose proof (final_finished w r s inputs Hs Hf) as Hs'.
  split; [exact Hs'|]. intros i e Hi. by apply (step_finished_quiet _ i r s).
Qed.

(** ** Messages after a terminal message *)

(** The claim of C5 fails: the handler is run on the messages dispatched
    after an error message and after the completion of the future, and
    logs their output. *)
Lemma C5_handler_runs_after_terminal_message :
  trace (final (init (JStr "x")) (launch 0 python3)) late_output =
    [log1 ("Output:" +:+ LF +:+ "late");
     log1 "Done. Shutting down python3 kernel...";
     CallShutdown python3;
     log1 ("Output:" +:+ LF +:+ "later")].
Proof. vm_compute. reflexivity. Qed.

(** C5, amended. From the moment the execute request has returned, the
    handler is run on every IOPub message the future dispatches, in the
    order of dispatch, whatever happened in between: the widget does not
    recognise terminal messages and never removes the handler.  Ending
    the dispatch after a terminal message is left to the future. *)
Theorem C5_handler_is_never_removed :
  ∀ w r s between msgs,
    runs w !! r = Some s → handler_installed s = true →
    exec (final w between) (IOPub r <$> msgs) =
      (final w between, mjoin (onIOPub <$> msgs)).
Proof.
  intros w r s between msgs Hs Hh.
  destruct (final_handler w r s between Hs Hh) as (s' & Hs' & Hh').
  by apply (exec_iopub _ r s').
Qed.

Lemma C5_witness :
  exec (final (final (init (JStr "x")) (launch 0 python3))
              [IOPub 0 (error_msg "NameError" "x"); DoneSettled 0 (Fulfilled ())])
       (IOPub 0 <$> [stream "stdout" "late"; stream "stderr" "warn"]) =
    (final (final (init (JStr "x")) (launch 0 python3))
           [IOPub 0 (error_msg "NameError" "x"); DoneSettled 0 (Fulfilled ())],
     mjoin (onIOPub <$> [stream "stdout" "late"; stream "stderr" "warn"])).
Proof.
  apply (C5_handler_is_never_removed
           (final (init (JStr "x")) (launch 0 python3)) 0 (InFlight python3));
    reflexivity.
Defined.

Lemma executed_onIOPub m : executed (onIOPub m) = [].
Proof. by destruct (onIOPub_cases m) as [-> | ->]. Qed.

Lemma executed_app a b : executed (a ++ b) = executed a ++ executed b.
Proof. apply omap_app. Qed.

(** The execute requests of one task: one, on the kernel that was just
    delivered, if the task reaches line 217, and none otherwise. *)
Lemma step_executed w i :
  executed (step w i).2 =
    if reaches_execute w i
    then match i with KernelSettled _ (Fulfilled k) _ => [k] | _ => [] end
    else [].
Proof.
  step_cases w i; try reflexivity; apply executed_onIOPub.
Qed.

(** ** Failures *)

(** The claim of C8 fails: when the kernel service rejects the shutdown,
    the task of the rejection logs nothing. *)
Lemma C8_rejected_shutdown_is_not_logged :
  runs closing_widget !! 0 = Some (AwaitShutdown python3) ∧
  step closing_widget (ShutdownSettled 0 (Rejected "500")) =
    ({| text := JStr "1+1"; runs := [ShutdownRejected python3 "500"] |}, []).
Proof. split; reflexivity. Qed.

(** C8, amended. If the kernel service rejects a shutdown request, the
    widget runs no callback: nothing is logged, no error value is
    produced, and the request is not repeated, then or later; the run
    stays in that state for good. *)
Theorem C8_rejected_shutdown_is_silent :
  ∀ w r k e,
    runs w !! r = Some (AwaitShutdown k) →
    (step w (ShutdownSettled r (Rejected e))).2 = [] ∧
    ∀ inputs,
      runs (final (step w (ShutdownSettled r (Rejected e))).1 inputs) !! r =
        Some (ShutdownRejected k e) ∧
      ∀ i ev, input_run i = Some r →
        ev ∈ (step (final (step w (ShutdownSettled r (Rejected e))).1 inputs) i).2 →
        is_call ev = false.
Proof.
  intros w r k e Hr.
  destruct (step_own w (ShutdownSettled r (Rejected e)) r _ Hr eq_refl)
    as [E H].
  split; [exact E|]. by apply finished_forever.
Qed.

Lemma C8_witness :
  (step closing_widget (ShutdownSettled 0 (Rejected "500"))).2 = [] ∧
  runs (final (step closing_widget (ShutdownSettled 0 (Rejected "500"))).1
              [ShutdownSettled 0 (Fulfilled ())]) !! 0 =
    Some (ShutdownRejected python3 "500").
Proof.
  destruct (C8_rejected_shutdown_is_silent closing_widget 0 python3 "500"
              eq_refl) as [E H].
  split; [exact E|]. exact (proj1 (H [ShutdownSettled 0 (Fulfilled ())])).
Defined.

(** ** One kernel per run *)

Lemma next_stage_past_kernel s i :
  past_kernel s = true → past_kernel (next_stage s i) = true.
Proof.
  destruct s, i; simpl; try done; destruct o; simpl; done.
Qed.

Lemma final_past_kernel w r s inputs :
  runs w !! r = Some s → past_kernel s = true →
  ∃ s', runs (final w inputs) !! r = Some s' ∧ past_kernel s' = true.
Proof.
  revert w s. induction inputs as [|i rest IH]; intros w s Hs Hp.
  - eauto.
  - rewrite final_cons. eapply IH.
    + by apply step_stage.
    + destruct (decide _); [by apply next_stage_past_kernel|done].
Qed.

(** The kernels executed on are kernels that [Kernel.startNew] delivered,
    each delivery being used at most once. *)
Lemma executed_sublist_delivered w inputs :
  executed (trace w inputs) `sublist_of` delivered inputs.
Proof.
  revert w. induction inputs as [|i rest IH]; intros w; [constructor|].
  rewrite trace_cons, executed_app, step_executed.
  destruct (reaches_execute w i) eqn:Hr.
  - destruct i as [| | |r [k|e] x| | |]; try discriminate.
    simpl. apply sublist_skip, IH.
  - simpl. destruct i as [| | |r [k|e] x| | |]; simpl; try apply IH.
    apply sublist_cons, IH.
Qed.

(** * Further properties of the code-run path *)

(** ** Runs do not interfere *)

Lemma final_foreign w r s others :
  runs w !! r = Some s → Forall (foreign r) others →
  runs (final w others) !! r = Some s.
Proof.
  revert w. induction others as [|i rest IH]; intros w Hs Hf; [exact Hs|].
  apply Forall_cons in Hf as [Hi Hrest].
  rewrite final_cons. apply IH; [|exact Hrest].
  rewrite (step_stage _ _ _ _ Hs). by rewrite decide_False.
Qed.

(** X1. The code a run executes is the editor text at the moment of the
    click.  Edits of the text, further clicks and the tasks of other
    runs that come in between the click, the answer of the spec query
    and the start of the kernel change neither the kernel name asked for
    nor the code submitted. *)
Theorem X1_code_is_captured_at_click :
  ∀ w others1 others2 specs kernel x,
    Forall (foreign (length (runs w))) others1 →
    Forall (foreign (length (runs w))) others2 →
    (step (final w (Click :: others1))
          (SpecsSettled (length (runs w)) (Fulfilled specs))).2 =
      [Log [LVal (JStr "Default spec:"); LVal (JStr (specs_default specs))];
       Log [LVal (JStr "Available specs:");
            LArr (Object_keys (kernelspecs specs))];
       CallStartNew {| opt_name := specs_default specs |}] ∧
    (step (final w (Click :: others1
                    ++ SpecsSettled (length (runs w)) (Fulfilled specs)
                    :: others2))
          (KernelSettled (length (runs w)) (Fulfilled kernel) x)).2 =
      [CallRequestExecute kernel (text w)].
Proof.
  intros w others1 others2 specs kernel x H1 H2.
  set (r := length (runs w)) in *.
  pose proof (click_stage w) as H0. fold r in H0.
  pose proof (final_foreign _ r _ others1 H0 H1) as Ha.
  rewrite <- final_cons in Ha.
  destruct (step_own _ (SpecsSettled r (Fulfilled specs)) r _ Ha eq_refl)
    as [E1 Hb].
  cbn [run_events next_stage after_getSpecs fst snd] in E1, Hb.
  split; [exact E1|].
  pose proof (final_foreign _ r _ others2 Hb H2) as Hc.
  assert (final w (Click :: others1 ++ SpecsSettled r (Fulfilled specs) :: others2)
          = final (step (final w (Click :: others1))
                        (SpecsSettled r (Fulfilled specs))).1 others2) as ->.
  { rewrite app_comm_cons, final_app, final_cons. reflexivity. }
  by destruct (step_own _ (KernelSettled r (Fulfilled kernel) x) r _ Hc eq_refl).
Qed.

Lemma X1_witness :
  (step (final (init (JStr "print(1)")) (Click :: [Edit (JStr "print(2)"); Click]))
        (SpecsSettled 0 (Fulfilled specs1))).2 =
    [Log [LVal (JStr "Default spec:"); LVal (JStr "python3")];
     Log [LVal (JStr "Available specs:"); LArr ["python3"; "ir"]];
     CallStartNew {| opt_name := "python3" |}] ∧
  (step (final (init (JStr "print(1)"))
               (Click :: [Edit (JStr "print(2)"); Click]
                ++ SpecsSettled 0 (Fulfilled specs1)
                :: [Edit JNull; SpecsSettled 1 (Rejected "offline")]))
        (KernelSettled 0 (Fulfilled python3) ReturnsFuture)).2 =
    [CallRequestExecute python3 (JStr "print(1)")].
Proof.
  apply (X1_code_is_captured_at_click (init (JStr "print(1)"))
           [Edit (JStr "print(2)"); Click]
           [Edit JNull; SpecsSettled 1 (Rejected "offline")]
           specs1 python3 ReturnsFuture);
    repeat constructor; unfold foreign; simpl; congruence.
Defined.

(** ** Failures before the execution *)

Lemma aborted_silent w i r e :
  runs w !! r = Some (Aborted e) → input_run i = Some r → step w i = (w, []).
Proof.
  intros Hs Hi.
  destruct i as [v| |r0 o|r0 o x|r0 m|r0 o|r0 o]; simpl in *;
    try discriminate; injection Hi as ->; by rewrite Hs.
Qed.

Lemma aborted_forever w r e inputs :
  runs w !! r = Some (Aborted e) →
  runs (final w inputs) !! r = Some (Aborted e) ∧
  ∀ i, input_run i = Some r → (step (final w inputs) i).2 = [].
Proof.
  intros Hs.
  pose proof (final_finished w r _ inputs Hs eq_refl) as Hs'.
  split; [exact Hs'|]. intros i Hi. by rewrite (aborted_silent _ i r e).
Qed.

(** X2. When the spec query or the start of the kernel is rejected, the
    run ends there without a trace: the task of the rejection logs and
    calls nothing, and no later task of that run does anything, so no
    kernel is started after a failed spec query and no code is executed
    after a failed start. *)
Theorem X2_failed_launch_ends_the_run :
  (∀ w r code e inputs,
     runs w !! r = Some (AwaitSpecs code) →
     (step w (SpecsSettled r (Rejected e))).2 = [] ∧
     runs (final (step w (SpecsSettled r (Rejected e))).1 inputs) !! r =
       Some (Aborted e) ∧
     ∀ i, input_run i = Some r →
       (step (final (step w (SpecsSettled r (Rejected e))).1 inputs) i).2 = [])
  ∧ (∀ w r code e x inputs,
     runs w !! r = Some (AwaitKernel code) →
     (step w (KernelSettled r (Rejected e) x)).2 = [] ∧
     runs (final (step w (KernelSettled r (Rejected e) x)).1 inputs) !! r =
       Some (Aborted e) ∧
     ∀ i, input_run i = Some r →
       (step (final (step w (KernelSettled r (Rejected e) x)).1 inputs) i).2 = []).
Proof.
  split.
  - intros w r code e inputs Hr.
    destruct (step_own w (SpecsSettled r (Rejected e)) r _ Hr eq_refl) as [E H].
    split; [exact E|]. by apply aborted_forever.
  - intros w r code e x inputs Hr.
    destruct (step_own w (KernelSettled r (Rejected e) x) r _ Hr eq_refl)
      as [E H].
    split; [exact E|]. by apply aborted_forever.
Qed.

Lemma X2_witness :
  (step (final (init (JStr "1+1")) [Click]) (SpecsSettled 0 (Rejected "offline"))).2
    = [] ∧
  (step (final (step (final (init (JStr "1+1")) [Click])
                     (SpecsSettled 0 (Rejected "offline"))).1 [Click])
        (KernelSettled 0 (Fulfilled python3) ReturnsFuture)).2 = [].
Proof.
  destruct X2_failed_launch_ends_the_run as [Hspecs _].
  destruct (Hspecs (final (init (JStr "1+1")) [Click]) 0 (JStr "1+1") "offline"
              [Click] eq_refl) as (E & _ & Hq).
  split; [exact E|]. apply Hq. reflexivity.
Defined.

(** X3. When [requestExecute] throws, the kernel that was just started
    is left running: the handler and the completion callback are never
    set up, so the run drops every later message and never asks for the
    shutdown of that kernel. *)
Theorem X3_throwing_execute_leaks_the_kernel :
  ∀ w r code kernel e inputs,
    runs w !! r = Some (AwaitKernel code) →
    (step w (KernelSettled r (Fulfilled kernel) (Throws e))).2 =
      [CallRequestExecute kernel code] ∧
    runs (final (step w (KernelSettled r (Fulfilled kernel) (Throws e))).1 inputs)
      !! r = Some (Aborted e) ∧
    ∀ i, input_run i = Some r →
      (step (final (step w (KernelSettled r (Fulfilled kernel) (Throws e))).1
                   inputs) i).2 = [].
Proof.
  intros w r code kernel e inputs Hr.
  destruct (step_own w (KernelSettled r (Fulfilled kernel) (Throws e)) r _
              Hr eq_refl) as [E H].
  split; [exact E|]. by apply aborted_forever.
Qed.

Lemma X3_witness :
  (step (final (init (JStr "1+1")) [Click; SpecsSettled 0 (Fulfilled specs1)])
        (KernelSettled 0 (Fulfilled python3) (Throws "Kernel is dead"))).2 =
    [CallRequestExecute python3 (JStr "1+1")] ∧
  (step (final (step (final (init (JStr "1+1"))
                            [Click; SpecsSettled 0 (Fulfilled specs1)])
                     (KernelSettled 0 (Fulfilled python3)
                                    (Throws "Kernel is dead"))).1
               [IOPub 0 (stream "stdout" "2")])
        (DoneSettled 0 (Fulfilled ()))).2 = [].
Proof.
  destruct (X3_throwing_execute_leaks_the_kernel
              (final (init (JStr "1+1")) [Click; SpecsSettled 0 (Fulfilled specs1)])
              0 (JStr "1+1") python3 "Kernel is dead"
              [IOPub 0 (stream "stdout" "2")] eq_refl) as (E & _ & Hq).
  split; [exact E|]. apply Hq. reflexivity.
Defined.

(** ** Accounting *)

Lemma count_app {A} (P : A → bool) l1 l2 :
  count P (l1 ++ l2) = count P l1 + count P l2.
Proof. induction l1 as [|x l1 IH]; simpl; [done|]. rewrite IH. lia. Qed.

Lemma count_insert {A} (P : A → bool) (l : list A) r s s' :
  l !! r = Some s →
  count P (<[r := s']> l) + (if P s then 1 else 0) =
  count P l + (if P s' then 1 else 0).
Proof.
  revert r. induction l as [|x l IH]; intros [|r] Hs; simpl in *; try done.
  - injection Hs as ->. lia.
  - specialize (IH r Hs). lia.
Qed.

Lemma count_onIOPub P m :
  (∀ args, P (Log args) = false) → count P (onIOPub m) = 0.
Proof.
  intros HP. destruct (onIOPub_cases m) as [-> | ->]; simpl; [done|].
  unfold log1. by rewrite HP.
Qed.

(** Replaces the counts over an updated list of runs by what
    [count_insert] says of them. *)
Ltac count_ins Hr :=
  repeat match goal with
  | |- context [count ?P (<[?r := ?s']> ?l)] =>
      let H := fresh "Hc" in
      pose proof (count_insert P l r _ s' Hr) as H; simpl in H;
      let n := fresh "n" in
      set (n := count P (<[r := s']> l)) in *; clearbody n
  end.

(** What one task adds to the calls, against the runs it moves on. *)
Lemma step_funnel w i :
  count is_getSpecs (step w i).2 = (if is_click i then 1 else 0) ∧
  (count is_startNew (step w i).2 + count awaiting_specs (runs (step w i).1)
    ≤ count awaiting_specs (runs w) + count is_getSpecs (step w i).2)%nat ∧
  (count is_requestExecute (step w i).2 + count awaiting_kernel (runs (step w i).1)
    ≤ count awaiting_kernel (runs w) + count is_startNew (step w i).2)%nat ∧
  (count is_shutdown (step w i).2 + count in_flight (runs (step w i).1)
    ≤ count in_flight (runs w) + count is_requestExecute (step w i).2)%nat.
Proof.
  step_cases w i; rewrite ?count_app; simpl;
    try (destruct (handler_installed _); simpl);
    rewrite ?count_onIOPub by done;
    try (count_ins Hr); repeat split; lia.
Qed.

Lemma exec_funnel w inputs :
  count is_getSpecs (trace w inputs) = count is_click inputs ∧
  (count is_startNew (trace w inputs) + count awaiting_specs (runs (final w inputs))
    ≤ count awaiting_specs (runs w) + count is_getSpecs (trace w inputs))%nat ∧
  (count is_requestExecute (trace w inputs)
    + count awaiting_kernel (runs (final w inputs))
    ≤ count awaiting_kernel (runs w) + count is_startNew (trace w inputs))%nat ∧
  (count is_shutdown (trace w inputs) + count in_flight (runs (final w inputs))
    ≤ count in_flight (runs w) + count is_requestExecute (trace w inputs))%nat.
Proof.
  revert w. induction inputs as [|i rest IH]; intros w.
  - unfold trace, final. simpl. repeat split; lia.
  - rewrite trace_cons, final_cons, !count_app.
    destruct (step_funnel w i) as (A1 & A2 & A3 & A4).
    destruct (IH (step w i).1) as (B1 & B2 & B3 & B4).
    simpl. repeat split; lia.
Qed.

(** X4. The calls on the kernel service form a funnel.  Every click
    queries the kernel specs once, nothing being cached from one click
    to the next; and from a fresh widget there are never more kernels
    started than spec queries, more execute requests than kernels
    started, or more shutdowns than execute requests. *)
Theorem X4_calls_form_a_funnel :
  ∀ t inputs,
    count is_getSpecs (trace (init t) inputs) = count is_click inputs ∧
    (count is_startNew (trace (init t) inputs)
      ≤ count is_getSpecs (trace (init t) inputs))%nat ∧
    (count is_requestExecute (trace (init t) inputs)
      ≤ count is_startNew (trace (init t) inputs))%nat ∧
    (count is_shutdown (trace (init t) inputs)
      ≤ count is_requestExecute (trace (init t) inputs))%nat.
Proof.
  intros t inputs.
  destruct (exec_funnel (init t) inputs) as (A1 & A2 & A3 & A4).
  simpl in *. repeat split; lia.
Qed.

(** ** Only kernels of the widget's own runs are shut down *)

Lemma step_new_run w i r s' :
  runs w !! r = None → runs (step w i).1 !! r = Some s' →
  s' = AwaitSpecs (text w).
Proof.
  intros Hn Hs'. apply lookup_ge_None in Hn.
  assert (∀ r0 s, <[r0 := s]> (runs w) !! r = Some s' → False) as Hins.
  { intros r0 s H. apply lookup_lt_Some in H. rewrite length_insert in H. lia. }
  assert (runs w !! r = Some s' → False) as Hold.
  { intros H. apply lookup_lt_Some in H. lia. }
  destruct i as [v| |r0 o|r0 o x|r0 m|r0 o|r0 o]; simpl in Hs'.
  - by destruct Hold.
  - apply lookup_app_Some in Hs' as [H|[_ H]]; [by destruct Hold|].
    apply list_lookup_singleton_Some in H as [_ H]. by subst.
  - destruct (runs w !! r0) as [[]|]; simpl in Hs';
      try (by destruct Hold); destruct o; simpl in Hs'; by destruct (Hins _ _ Hs').
  - destruct (runs w !! r0) as [[]|]; simpl in Hs';
      try (by destruct Hold); destruct o; simpl in Hs'; by destruct (Hins _ _ Hs').
  - destruct (runs w !! r0) as [s|]; [destruct (handler_installed s)|];
      by destruct Hold.
  - destruct (runs w !! r0) as [[]|]; simpl in Hs';
      try (by destruct Hold); destruct o; simpl in Hs'; by destruct (Hins _ _ Hs').
  - destruct (runs w !! r0) as [[]|]; simpl in Hs';
      try (by destruct Hold); destruct o; simpl in Hs'; by destruct (Hins _ _ Hs').
Qed.

(** A future is outstanding after a task only if it was before, or if
    the task sent its execute request. *)
Lemma step_in_flight_inv w i r k :
  runs (step w i).1 !! r = Some (InFlight k) →
  runs w !! r = Some (InFlight k) ∨ k ∈ executed (step w i).2.
Proof.
  intros H'. destruct (runs w !! r) as [s|] eqn:Hs.
  - rewrite (step_stage _ _ _ _ Hs) in H'. injection H' as H'.
    destruct (decide (input_run i = Some r)) as [Hi|]; [|left; congruence].
    rewrite (step_events w i r s Hs Hi).
    destruct s, i; simpl in *; try discriminate; try (left; congruence);
      destruct o; simpl in *; try discriminate.
    destruct x; simpl in *; try discriminate.
    injection H' as ->. right. set_solver.
  - apply (step_new_run _ _ _ _ Hs) in H'. discriminate.
Qed.

Lemma shut_down_app a b : shut_down (a ++ b) = shut_down a ++ shut_down b.
Proof. apply omap_app. Qed.

Lemma step_shut_down_in_flight w i k :
  k ∈ shut_down (step w i).2 → ∃ r, runs w !! r = Some (InFlight k).
Proof.
  intros H. unfold shut_down in H. apply list_elem_of_omap in H as (e & He & Hk).
  destruct e; try discriminate. injection Hk as ->.
  apply step_shutdown_inv in He as (r & _ & Hr). eauto.
Qed.

Lemma shut_down_was_executed w inputs k :
  k ∈ shut_down (trace w inputs) →
  k ∈ executed (trace w inputs) ∨ ∃ r, runs w !! r = Some (InFlight k).
Proof.
  revert w. induction inputs as [|i rest IH]; intros w.
  - unfold trace. simpl. intros H. inversion H.
  - rewrite trace_cons, shut_down_app, executed_app. intros H.
    apply elem_of_app in H as [H|H].
    + right. by apply (step_shut_down_in_flight w i).
    + apply IH in H as [H|[r Hr]].
      * left. apply elem_of_app. by right.
      * apply step_in_flight_inv in Hr as [Hr|Hr]; [right; eauto|].
        left. apply elem_of_app. by left.
Qed.

(** X5. From a fresh widget, every kernel the widget asks to shut down
    is one it has sent an execute request to, and hence one that
    [Kernel.startNew] handed to it: the widget never shuts down a kernel
    it did not start and use. *)
Theorem X5_only_own_kernels_are_shut_down :
  ∀ t inputs k,
    k ∈ shut_down (trace (init t) inputs) →
    k ∈ executed (trace (init t) inputs) ∧ k ∈ delivered inputs.
Proof.
  intros t inputs k H.
  apply shut_down_was_executed in H as [H|[r Hr]]; [|by destruct r].
  split; [exact H|].
  eapply elem_of_sublist; [exact H|apply executed_sublist_delivered].
Qed.

Lemma X5_witness :
  python3' ∈ executed (trace (init (JStr "1+1")) two_runs) ∧
  python3' ∈ delivered two_runs.
Proof.
  apply (X5_only_own_kernels_are_shut_down (JStr "1+1") two_runs python3').
  apply (bool_decide_unpack _). vm_compute. reflexivity.
Defined.

(** * Properties of the editor wrapper *)

(** ** Stale selections *)

Lemma foldl_delete_lookup {V} (c : gset string) (ks : list string)
    (m : gmap string V) (k : string) :
  foldl (λ sel key, if bool_decide (key ∈ c) then sel else delete key sel) m ks
    !! k =
  if bool_decide (k ∈ ks ∧ k ∉ c) then None else m !! k.
Proof.
  revert m. induction ks as [|a ks IH]; intros m; cbn [foldl].
  - rewrite bool_decide_false; [done|]. intros [H _]. inversion H.
  - rewrite IH. destruct (decide (a ∈ c)) as [Ha|Ha].
    + rewrite (bool_decide_true _ Ha).
      rewrite (bool_decide_ext (k ∈ a :: ks ∧ k ∉ c) (k ∈ ks ∧ k ∉ c)); [done|].
      rewrite elem_of_cons.
      split; [intros [[->|H1] H2]; done|intros [H1 H2]; auto].
    + rewrite (bool_decide_false _ Ha).
      destruct (decide (k = a)) as [->|Hne].
      * rewrite lookup_delete_eq.
        rewrite (bool_decide_true (a ∈ a :: ks ∧ a ∉ c))
          by (split; [by left|done]).
        by destruct (bool_decide _).
      * rewrite lookup_delete_ne by done.
        rewrite (bool_decide_ext (k ∈ a :: ks ∧ k ∉ c) (k ∈ ks ∧ k ∉ c)); [done|].
        rewrite elem_of_cons.
        split; [intros [[->|H1] H2]; done|intros [H1 H2]; auto].
Qed.

Lemma selection_keys_elem {V} (m : gmap string V) k :
  k ∈ selection_keys m ↔ is_Some (m !! k).
Proof.
  unfold selection_keys. rewrite list_elem_of_fmap. split.
  - intros ([k' v] & -> & H). apply elem_of_map_to_list in H. by eexists.
  - intros [v H]. exists (k, v). split; [done|]. by apply elem_of_map_to_list.
Qed.

Lemma onCollaboratorsChanged_lookup {V} c (selections : gmap string V) k :
  _onCollaboratorsChanged (Some c) selections !! k =
    if bool_decide (k ∈ c) then selections !! k else None.
Proof.
  unfold _onCollaboratorsChanged. rewrite foldl_delete_lookup.
  destruct (decide (k ∈ c)) as [Hc|Hc].
  - rewrite (bool_decide_true _ Hc). rewrite bool_decide_false; [done|tauto].
  - rewrite (bool_decide_false _ Hc).
    destruct (selections !! k) as [v|] eqn:Hk.
    + rewrite bool_decide_true; [done|]. split; [|done].
      apply selection_keys_elem. by eexists.
    + by destruct (bool_decide _).
Qed.

(** X6. When the collaborators change, the selections that remain are
    exactly those whose key is a collaborator, each with its value
    untouched; every other selection is deleted.  Without a collaborator
    map nothing is changed. *)
Theorem X6_stale_selections_are_removed :
  ∀ (V : Type) (c : gset string) (selections : gmap string V),
    (∀ k, _onCollaboratorsChanged (Some c) selections !! k =
          if bool_decide (k ∈ c) then selections !! k else None)
    ∧ _onCollaboratorsChanged None selections = selections.
Proof.
  intros V c selections. split; [|reflexivity].
  intros k. apply onCollaboratorsChanged_lookup.
Qed.

(** X7. Cleaning the selections is idempotent and only ever removes:
    a second run with the same collaborators changes nothing, the result
    is a part of the selections it started from, and selections whose
    keys are all collaborators are left exactly as they are. *)
Theorem X7_cleaning_selections_is_idempotent :
  ∀ (V : Type) (collaborators : option (gset string))
    (selections : gmap string V),
    _onCollaboratorsChanged collaborators
      (_onCollaboratorsChanged collaborators selections)
      = _onCollaboratorsChanged collaborators selections
    ∧ _onCollaboratorsChanged collaborators selections ⊆ selections
    ∧ (∀ c, collaborators = Some c → dom selections ⊆ c →
         _onCollaboratorsChanged collaborators selections = selections).
Proof.
  intros V [c|] selections; [|by repeat split].
  split; [|split].
  - apply map_eq. intros k. rewrite !onCollaboratorsChanged_lookup.
    by destruct (bool_decide _).
  - apply map_subseteq_spec. intros k v.
    rewrite onCollaboratorsChanged_lookup. by destruct (bool_decide _).
  - intros c' [= <-] Hdom. apply map_eq. intros k.
    rewrite onCollaboratorsChanged_lookup.
    destruct (decide (k ∈ c)) as [Hc|Hc].
    + by rewrite (bool_decide_true _ Hc).
    + rewrite (bool_decide_false _ Hc). symmetry.
      apply not_elem_of_dom. set_solver.
Qed.

Lemma X7_witness :
  _onCollaboratorsChanged (Some ({["alice"; "bob"]} : gset string))
    ({["alice" := 1; "bob" := 2]} : gmap string nat)
  = {["alice" := 1; "bob" := 2]}.
Proof.
  destruct (X7_cleaning_selections_is_idempotent nat
              (Some ({["alice"; "bob"]} : gset string))
              ({["alice" := 1; "bob" := 2]} : gmap string nat))
    as (_ & _ & H).
  apply (H {["alice"; "bob"]} eq_refl).
  apply (bool_decide_unpack _). vm_compute. reflexivity.
Defined.

(** * Properties of the focus, the DOM events and the path *)

Lemma widget_exec_cons `{IEditor E} `{IEditorMimeTypeService}
    (w : FileEditor E) i rest :
  widget_exec w (i :: rest) =
    ((widget_exec (widget_step w i).1 rest).1,
     (widget_step w i).2 ++ (widget_exec (widget_step w i).1 rest).2).
Proof.
  cbn [widget_exec]. destruct (widget_step w i) as [w1 c1]. cbn [fst snd].
  by destruct (widget_exec w1 rest).
Qed.

Lemma widget_step_detached `{IEditor E} `{IEditorMimeTypeService}
    (w : FileEditor E) type :
  "mousedown" ∉ listening w → widget_step w (DomEvent type) = (w, []).
Proof.
  intros Hl. cbn [widget_step].
  destruct (decide (type ∈ listening w)) as [Hin|Hout].
  - rewrite (bool_decide_true _ Hin). unfold handleEvent.
    destruct (negb (model_present w)); [done|].
    rewrite bool_decide_false; [done|]. by intros ->.
  - by rewrite (bool_decide_false _ Hout).
Qed.

(** X11. DOM events reach the editor only through the listener that the
    attachment registers.  Between a detachment and the next attachment
    no DOM event has any effect; an event other than a mouse press, or
    any event while the model is not set, never has; and detaching after
    attaching leaves the listeners of a widget as they were before. *)
Theorem X11_dom_events_need_the_listener :
  ∀ (E : Type) (Ed : IEditor E) (Svc : IEditorMimeTypeService)
    (w : FileEditor E),
    (∀ types, widget_exec (onBeforeDetach w) (DomEvent <$> types) =
                (onBeforeDetach w, []))
    ∧ (∀ type, type ≠ "mousedown" ∨ model_present w = false →
         widget_step w (DomEvent type) = (w, []))
    ∧ ("mousedown" ∉ listening w → onBeforeDetach (onAfterAttach w) = w).
Proof.
  intros E Ed Svc w. split; [|split].
  - intros types. induction types as [|type rest IH]; [done|].
    rewrite fmap_cons, widget_exec_cons.
    rewrite widget_step_detached
      by (cbn [onBeforeDetach with_listening listening];
          rewrite elem_of_difference, elem_of_singleton; tauto).
    cbn [fst snd]. by rewrite IH.
  - intros type Hor. cbn [widget_step].
    destruct (bool_decide (type ∈ listening w)); [|done].
    unfold handleEvent. destruct Hor as [Hne| ->]; [|done].
    destruct (negb (model_present w)); [done|].
    by rewrite bool_decide_false.
  - intros Hl. destruct w as [m e l p mt]. unfold onBeforeDetach, onAfterAttach,
      with_listening. simpl in *. f_equal.
    apply leibniz_equiv, set_equiv. intros x.
    rewrite elem_of_difference, elem_of_union, elem_of_singleton.
    split; [tauto|]. intros Hx. split; [tauto|]. by intros ->.
Qed.

Lemma X11_witness :
  widget_step (new_FileEditor false "a.py" "") (DomEvent "keydown") =
    (new_FileEditor false "a.py" "", []) ∧
  onBeforeDetach (onAfterAttach (new_FileEditor false "a.py" "")) =
    new_FileEditor false "a.py" "".
Proof.
  destruct (X11_dom_events_need_the_listener bool bool_editor by_extension
              (new_FileEditor false "a.py" "")) as (_ & Hother & Hround).
  split.
  - apply Hother. left. discriminate.
  - apply Hround. apply (bool_decide_unpack _). vm_compute. reflexivity.
Defined.

Lemma ensureFocus_keeps `{IEditor E} (w : FileEditor E) :
  mimeType (_ensureFocus w).1 = mimeType w ∧
  localPath (_ensureFocus w).1 = localPath w.
Proof. unfold _ensureFocus. by destruct (negb (hasFocus (editor w))). Qed.

Lemma handleEvent_keeps `{IEditor E} (w : FileEditor E) type :
  mimeType (handleEvent w type).1 = mimeType w ∧
  localPath (handleEvent w type).1 = localPath w.
Proof.
  unfold handleEvent. destruct (negb (model_present w)); [done|].
  destruct (bool_decide (type = "mousedown")); [|done]. apply ensureFocus_keeps.
Qed.

Lemma widget_step_localPath `{IEditor E} `{IEditorMimeTypeService}
    (w : FileEditor E) i :
  localPath (widget_step w i).1 =
    match i with PathChanged path => path | _ => localPath w end.
Proof.
  destruct i as [| | |type|path|e];
    cbn [widget_step onActivateRequest]; try done.
  - apply ensureFocus_keeps.
  - destruct (bool_decide (type ∈ listening w)); [|done]. apply handleEvent_keeps.
Qed.

Lemma widget_step_mimeType `{IEditor E} `{IEditorMimeTypeService}
    (w : FileEditor E) i :
  mimeType w = getMimeTypeByFilePath (localPath w) →
  mimeType (widget_step w i).1 =
    getMimeTypeByFilePath (localPath (widget_step w i).1).
Proof.
  intros Hw. rewrite widget_step_localPath.
  destruct i as [| | |type|path|e];
    cbn [widget_step onActivateRequest]; try done.
  - by rewrite (proj1 (ensureFocus_keeps w)).
  - destruct (bool_decide (type ∈ listening w)); [|done].
    by rewrite (proj1 (handleEvent_keeps w type)).
Qed.

Lemma widget_exec_mimeType `{IEditor E} `{IEditorMimeTypeService}
    (w : FileEditor E) inputs :
  mimeType w = getMimeTypeByFilePath (localPath w) →
  mimeType (widget_exec w inputs).1 =
    getMimeTypeByFilePath (localPath (widget_exec w inputs).1).
Proof.
  revert w. induction inputs as [|i rest IH]; intros w Hw; [done|].
  rewrite widget_exec_cons. cbn [fst]. by apply IH, widget_step_mimeType.
Qed.

Lemma widget_exec_snoc `{IEditor E} `{IEditorMimeTypeService}
    (w : FileEditor E) inputs i :
  (widget_exec w (inputs ++ [i])).1 = (widget_step (widget_exec w inputs).1 i).1.
Proof.
  revert w. induction inputs as [|j rest IH]; intros w.
  - cbn [app]. by rewrite widget_exec_cons.
  - rewrite <- app_comm_cons, !widget_exec_cons. cbn [fst]. apply IH.
Qed.

(** X12. From its construction on, and through every rename, mouse
    press, activation, attachment and detachment, the mime type of the
    editor model is the one the mime type service gives for the current
    path of the document, whatever mime type the model had before; in
    particular, right after a rename it is the mime type of the new path. *)
Theorem X12_mime_type_follows_the_path :
  ∀ (E : Type) (Ed : IEditor E) (Svc : IEditorMimeTypeService)
    (e : E) path initialMimeType inputs,
    mimeType (widget_exec (new_FileEditor e path initialMimeType) inputs).1 =
      getMimeTypeByFilePath
        (localPath (widget_exec (new_FileEditor e path initialMimeType) inputs).1)
    ∧ ∀ path',
        mimeType (widget_exec (new_FileEditor e path initialMimeType)
                              (inputs ++ [PathChanged path'])).1
        = getMimeTypeByFilePath path'.
Proof.
  intros E Ed Svc e path initialMimeType inputs.
  split; [by apply widget_exec_mimeType|].
  intros path'. rewrite widget_exec_mimeType by done.
  by rewrite widget_exec_snoc, widget_step_localPath.
Qed.

(** * The execute and shutdown operations, after the specification *)

Section SessionProperties.
Import Session.

Lemma after_all_cons h c rest :
  after_all h (c :: rest) = after_all (after h c) rest.
Proof. reflexivity. Qed.

Lemma after_all_snoc h calls c :
  after_all h (calls ++ [c]) = after (after_all h calls) c.
Proof. unfold after_all. by rewrite foldl_app. Qed.

Lemma after_refused h code :
  accepted h code = false → after h (DoExecute code) = h.
Proof.
  unfold accepted, after. by destruct (execute h code).
Qed.

(** C2. On every session handle an execute call whose code is null or
    undefined fails with the invalid-argument error and sends nothing
    over the transport.  The empty string is a valid code: no handle
    answers it with the invalid-argument error, and a ready handle
    accepts it and submits it in one execute request. *)
Theorem C2_null_code_is_an_invalid_argument :
  (∀ h code,
     code = NullCode ∨ code = UndefinedCode →
     execute h code = Fail InvalidArgument ∧
     transport (after h (DoExecute code)) = transport h)
  ∧ (∀ h, execute h (Code "") ≠ Fail InvalidArgument)
  ∧ (∀ h, state h = Ready →
       execute h (Code "") =
         Ok {| state := Executing;
               transport := transport h ++ [ExecuteRequest ""] |}).
Proof.
  split; [|split].
  - by intros h code [-> | ->].
  - intros h. unfold execute. by destruct (state h).
  - intros h Hr. unfold execute. by rewrite Hr.
Qed.

Lemma C2_witness :
  execute fresh NullCode = Fail InvalidArgument ∧
  transport (after fresh (DoExecute NullCode)) = [] ∧
  execute fresh (Code "") =
    Ok {| state := Executing; transport := [ExecuteRequest ""] |}.
Proof.
  destruct C2_null_code_is_an_invalid_argument as (Hnull & _ & Hempty).
  destruct (Hnull fresh NullCode (or_introl eq_refl)) as [E T].
  split; [exact E|split; [exact T|]]. exact (Hempty fresh eq_refl).
Defined.

Lemma after_execute_ready h c :
  state h = Ready →
  after h (DoExecute (Code c)) =
    {| state := Executing; transport := transport h ++ [ExecuteRequest c] |}.
Proof. intros Hr. unfold after, execute. by rewrite Hr. Qed.

(** Messages that do not end the future leave it outstanding. *)
Lemma deliver_non_terminal h msgs :
  state h = Executing → Forall (λ m, terminal m = false) msgs →
  after_all h (DoDeliver <$> msgs) = h.
Proof.
  intros He Hall. induction Hall as [|m msgs Hm _ IH]; [done|].
  rewrite fmap_cons, after_all_cons.
  assert (after h (DoDeliver m) = h) as ->; [|exact IH].
  unfold after, deliver. by rewrite He, Hm.
Qed.

(** C3. A session handle with an outstanding execution future accepts
    no second execute call: the call fails fast, with the session-busy
    error when its code is valid, sends nothing and leaves the handle as
    it was.  The future of an accepted call is outstanding until its
    terminal message has been delivered, so a second call is refused
    with the session-busy error before that message and accepted after
    it. *)
Theorem C3_second_execute_is_busy :
  (∀ h code,
     state h = Executing →
     accepted h code = false ∧ after h (DoExecute code) = h)
  ∧ (∀ h c, state h = Executing → execute h (Code c) = Fail SessionBusy)
  ∧ (∀ h c1 msgs c2,
       state h = Ready → Forall (λ m, terminal m = false) msgs →
       execute (after_all (after h (DoExecute (Code c1))) (DoDeliver <$> msgs))
               (Code c2) = Fail SessionBusy)
  ∧ (∀ h c1 msgs m c2,
       state h = Ready → Forall (λ m, terminal m = false) msgs →
       terminal m = true →
       accepted (after_all (after h (DoExecute (Code c1)))
                           (DoDeliver <$> (msgs ++ [m])))
                (Code c2) = true).
Proof.
  assert (∀ h code, state h = Executing → accepted h code = false) as Hbusy.
  { intros h code He. unfold accepted, execute.
    destruct code; [done|done|by rewrite He]. }
  split; [|split; [|split]].
  - intros h code He. split; [by apply Hbusy|].
    by apply after_refused, Hbusy.
  - intros h c He. unfold execute. by rewrite He.
  - intros h c1 msgs c2 Hr Hall. rewrite after_execute_ready by done.
    rewrite deliver_non_terminal by done. reflexivity.
  - intros h c1 msgs m c2 Hr Hall Hm. rewrite after_execute_ready by done.
    rewrite fmap_app, fmap_cons, fmap_nil, after_all_snoc.
    rewrite deliver_non_terminal by done.
    unfold accepted, after, deliver, execute. simpl. by rewrite Hm.
Qed.

Lemma C3_witness :
  execute (after_all (after fresh (DoExecute (Code "print(1)")))
                     (DoDeliver <$> [StreamOutput false "1"]))
          (Code "print(2)") = Fail SessionBusy ∧
  accepted (after_all (after fresh (DoExecute (Code "print(1)")))
                      (DoDeliver <$> ([StreamOutput false "1"]
                                      ++ [ExecutionComplete])))
           (Code "print(2)") = true.
Proof.
  destruct C3_second_execute_is_busy as (_ & _ & Hbefore & Hafter).
  split.
  - apply Hbefore; [reflexivity|]. repeat constructor.
  - apply Hafter; [reflexivity| |reflexivity]. repeat constructor.
Defined.










End SessionProperties.

(** * One kernel per execution *)

Lemma world_step_some W t i :
  world_input W t = Some i →
  world_step W t =
    ({| widget := (step (widget W) i).1;
        sessions := match t with
                    | Started _ _ => S (sessions W)
                    | _ => sessions W
                    end;
        start_calls := recorded i (step (widget W) i).2
                                (answered t (start_calls W)) |},
     (step (widget W) i).2).
Proof.
  intros Hi. unfold world_step. rewrite Hi. by destruct (step (widget W) i).
Qed.

Lemma world_step_none W t : world_input W t = None → world_step W t = (W, []).
Proof. intros Hi. unfold world_step. by rewrite Hi. Qed.

Lemma world_exec_cons W t rest :
  world_exec W (t :: rest) =
    ((world_exec (world_step W t).1 rest).1,
     (world_step W t).2 ++ (world_exec (world_step W t).1 rest).2).
Proof.
  cbn [world_exec]. destruct (world_step W t) as [W1 e1]. cbn [fst snd].
  by destruct (world_exec W1 rest).
Qed.

(** The world does to the widget what its tasks amount to. *)
Lemma world_exec_widget W tasks :
  world_trace W tasks = trace (widget W) (world_inputs W tasks) ∧
  widget (world_final W tasks) = final (widget W) (world_inputs W tasks).
Proof.
  unfold world_trace, world_final. revert W.
  induction tasks as [|t rest IH]; intros W; [done|].
  rewrite world_exec_cons. cbn [fst snd world_inputs].
  destruct (IH (world_step W t).1) as [IH1 IH2]. rewrite IH1, IH2.
  destruct (world_input W t) as [i|] eqn:Hi.
  - rewrite (world_step_some _ _ _ Hi). cbn [fst snd widget app].
    by rewrite trace_cons, final_cons.
  - by rewrite (world_step_none _ _ Hi).
Qed.

Lemma world_inputs_pass W inputs :
  Forall (λ i, is_kernel_settlement i = false) inputs →
  world_inputs W (Pass <$> inputs) = inputs.
Proof.
  intros Hall. revert W. induction Hall as [|i rest Hi _ IH]; intros W; [done|].
  rewrite fmap_cons. cbn [world_inputs].
  assert (world_input W (Pass i) = Some i) as -> by (by destruct i).
  cbn [app]. by rewrite IH.
Qed.

(** The kernels that reach the widget are the sessions started in the
    meantime, in the order of their start. *)
Lemma world_delivered W tasks :
  ∃ k, sessions (world_final W tasks) = sessions W + k ∧
       kernel_id <$> delivered (world_inputs W tasks) =
         pretty <$> seq (sessions W) k.
Proof.
  unfold world_final. revert W.
  induction tasks as [|t rest IH]; intros W.
  - exists 0. cbn [world_exec fst world_inputs]. split; [lia|done].
  - rewrite world_exec_cons. cbn [fst world_inputs].
    destruct (IH (world_step W t).1) as (k & IH1 & IH2).
    unfold delivered in *. rewrite omap_app, fmap_app, IH2, IH1.
    destruct (world_input W t) as [i|] eqn:Hi.
    + rewrite (world_step_some _ _ _ Hi). cbn [fst sessions].
      destruct t as [j|r x|r e]; cbn [world_input] in Hi.
      * assert (is_kernel_settlement i = false) as Hk
          by (destruct j; try discriminate; by injection Hi as <-).
        exists k. split; [lia|]. by destruct i.
      * destruct (start_calls W !! r) as [opts|]; [|discriminate].
        injection Hi as <-. exists (S k). split; [lia|]. reflexivity.
      * destruct (start_calls W !! r) as [opts|]; [|discriminate].
        injection Hi as <-. exists k. split; [lia|]. done.
    + rewrite (world_step_none _ _ Hi). exists k. split; [done|done].
Qed.

Lemma world_executed_NoDup W tasks : NoDup (executed (world_trace W tasks)).
Proof.
  destruct (world_exec_widget W tasks) as [-> _].
  eapply sublist_NoDup; [|apply executed_sublist_delivered].
  apply (NoDup_fmap_1 kernel_id).
  destruct (world_delivered W tasks) as (k & _ & ->).
  apply NoDup_fmap_2; [apply _|apply NoDup_seq].
Qed.

(** A whole run in the world is a whole run of the widget on the session
    that the launcher starts for it. *)
Lemma world_inputs_whole_run W specs msgs :
  world_inputs W (world_whole_run (length (runs (widget W))) specs msgs) =
    whole_run (length (runs (widget W))) specs
      (new_kernel (sessions W) {| opt_name := specs_default specs |}) msgs.
Proof.
  set (r := length (runs (widget W))). unfold world_whole_run, whole_run.
  rewrite <- !app_comm_cons, !app_nil_l. cbn [world_inputs].
  (* the click *)
  assert (world_input W (Pass Click) = Some Click) as H1 by done.
  rewrite H1, (world_step_some _ _ _ H1). cbn [fst app].
  set (W1 := {| widget := (step (widget W) Click).1 |}).
  pose proof (click_stage (widget W)) as Hs1. fold r in Hs1.
  (* the specs *)
  assert (world_input W1 (Pass (SpecsSettled r (Fulfilled specs))) =
          Some (SpecsSettled r (Fulfilled specs))) as H2 by done.
  rewrite H2, (world_step_some _ _ _ H2). cbn [fst app].
  destruct (step_own (widget W1) (SpecsSettled r (Fulfilled specs)) r _
              Hs1 eq_refl) as [E2 _].
  cbn [run_events after_getSpecs snd] in E2.
  set (W2 := {| widget := (step (widget W1) _).1 |}).
  assert (start_calls W2 !! r = Some {| opt_name := specs_default specs |})
    as Hcall.
  { subst W2. cbn [start_calls]. rewrite E2. unfold recorded.
    cbn [input_run started omap]. apply lookup_insert_eq. }
  assert (sessions W2 = sessions W) as Hn by done.
  (* the kernel *)
  assert (world_input W2 (Started r ReturnsFuture) =
          Some (KernelSettled r
                  (Fulfilled (new_kernel (sessions W)
                                {| opt_name := specs_default specs |}))
                  ReturnsFuture)) as H3.
  { cbn [world_input]. by rewrite Hcall, Hn. }
  rewrite H3. cbn [app]. do 3 f_equal.
  apply world_inputs_pass. apply Forall_app. split.
  - apply Forall_fmap, Forall_forall. done.
  - by constructor.
Qed.

(** C9. Every run of the code-run operation starts a kernel of its own,
    executes once on it and asks for its shutdown in the task in which
    the execution completes: a whole run calls [Kernel.startNew] and
    sends its one execute request and its shutdown request to the
    session started for it.  Over any sequence of tasks no kernel is
    executed on twice, there are never more execute requests than
    kernels started, and a run that has got its kernel sends no further
    execute request. *)
Theorem C9_one_kernel_per_execution :
  (∀ W specs msgs,
     world_trace W (world_whole_run (length (runs (widget W))) specs msgs) =
       [log1 ("Code: " +:+ toStr (text (widget W))); CallGetSpecs;
        Log [LVal (JStr "Default spec:"); LVal (JStr (specs_default specs))];
        Log [LVal (JStr "Available specs:");
             LArr (Object_keys (kernelspecs specs))];
        CallStartNew {| opt_name := specs_default specs |};
        CallRequestExecute
          (new_kernel (sessions W) {| opt_name := specs_default specs |})
          (text (widget W))]
       ++ mjoin (onIOPub <$> msgs)
       ++ [log1 ("Done. Shutting down " +:+ specs_default specs +:+ " kernel...");
           CallShutdown
             (new_kernel (sessions W) {| opt_name := specs_default specs |})])
  ∧ (∀ W tasks, NoDup (executed (world_trace W tasks)))
  ∧ (∀ t tasks,
       (count is_requestExecute (world_trace (init_world t) tasks)
        ≤ count is_startNew (world_trace (init_world t) tasks))%nat)
  ∧ (∀ w r s inputs i,
       runs w !! r = Some s → past_kernel s = true → input_run i = Some r →
       executed (step (final w inputs) i).2 = [])
  ∧ (∀ w r k,
       runs w !! r = Some (InFlight k) →
       (step w (DoneSettled r (Fulfilled ()))).2 =
         [log1 ("Done. Shutting down " +:+ kernel_name k +:+ " kernel...");
          CallShutdown k]).
Proof.
  split; [|split; [|split; [|split]]].
  - intros W specs msgs.
    destruct (world_exec_widget W
                (world_whole_run (length (runs (widget W))) specs msgs))
      as [-> _].
    rewrite world_inputs_whole_run.
    by destruct (whole_run_exec (widget W) specs
                   (new_kernel (sessions W) {| opt_name := specs_default specs |})
                   msgs) as [-> _].
  - exact world_executed_NoDup.
  - intros t tasks. destruct (world_exec_widget (init_world t) tasks) as [-> _].
    destruct (exec_funnel (widget (init_world t))
                (world_inputs (init_world t) tasks)) as (_ & _ & H & _).
    change (runs (widget (init_world t))) with (@nil Stage) in H.
    cbn [count] in H. lia.
  - intros w r s inputs i Hs Hp Hi.
    destruct (final_past_kernel w r s inputs Hs Hp) as (s' & Hs' & Hp').
    rewrite step_executed.
    destruct i as [| | |r0 [k|e] x| | |]; simpl in *; try done.
    injection Hi as ->. rewrite Hs'. by destruct s'.
  - intros w r k Hr.
    by destruct (step_own w (DoneSettled r (Fulfilled ())) r _ Hr eq_refl).
Qed.

Lemma C9_witness :
  executed (world_trace (init_world (JStr "1+1")) two_world_runs) =
    [new_kernel 0 {| opt_name := "python3" |};
     new_kernel 1 {| opt_name := "python3" |}] ∧
  executed (step (final running_widget [IOPub 0 (stream "stdout" "2")])
                 (KernelSettled 0 (Fulfilled python3') ReturnsFuture)).2 = [] ∧
  (step running_widget (DoneSettled 0 (Fulfilled ()))).2 =
    [log1 ("Done. Shutting down " +:+ kernel_name python3 +:+ " kernel...");
     CallShutdown python3].
Proof.
  destruct C9_one_kernel_per_execution as (_ & _ & _ & Honce & Hdone).
  split; [vm_compute; reflexivity|split].
  - apply (Honce running_widget 0 (InFlight python3)); reflexivity.
  - apply Hdone. reflexivity.
Defined.

(** * Focus requests *)





(** * The end of a run *)

(** X13. When the future of an execution rejects, the completion
    callback never runs: the task of the rejection does nothing, and no
    later task of that run calls the kernel service, so the kernel that
    was started for the run is never asked to shut down. *)
Theorem X13_rejected_future_leaks_the_kernel :
  ∀ w r k e inputs,
    runs w !! r = Some (InFlight k) →
    (step w (DoneSettled r (Rejected e))).2 = [] ∧
    runs (final (step w (DoneSettled r (Rejected e))).1 inputs) !! r =
      Some (DoneRejected k e) ∧
    ∀ i ev, input_run i = Some r →
      ev ∈ (step (final (step w (DoneSettled r (Rejected e))).1 inputs) i).2 →
      is_call ev = false.
Proof.
  intros w r k e inputs Hr.
  destruct (step_own w (DoneSettled r (Rejected e)) r _ Hr eq_refl) as [E H].
  split; [exact E|]. by apply finished_forever.
Qed.

Lemma X13_witness :
  (step running_widget (DoneSettled 0 (Rejected "Canceled"))).2 = [] ∧
  runs (final (step running_widget (DoneSettled 0 (Rejected "Canceled"))).1
              [DoneSettled 0 (Fulfilled ()); ShutdownSettled 0 (Fulfilled ())])
    !! 0 = Some (DoneRejected python3 "Canceled").
Proof.
  destruct (X13_rejected_future_leaks_the_kernel running_widget 0 python3
              "Canceled"
              [DoneSettled 0 (Fulfilled ()); ShutdownSettled 0 (Fulfilled ())]
              eq_refl) as (E & H & _).
  split; [exact E|exact H].
Defined.

(** X14. When the shutdown of a kernel succeeds, the widget logs
    "Kernel shut down" and the run is over: its stage never changes
    again and no later task of that run calls the kernel service, so the
    run sends no execute or shutdown request after the shutdown. *)
Theorem X14_run_is_over_after_shutdown :
  ∀ w r k inputs,
    runs w !! r = Some (AwaitShutdown k) →
    (step w (ShutdownSettled r (Fulfilled ()))).2 = [log1 "Kernel shut down"] ∧
    runs (final (step w (ShutdownSettled r (Fulfilled ()))).1 inputs) !! r =
      Some (ShutDown k) ∧
    ∀ i e, input_run i = Some r →
      e ∈ (step (final (step w (ShutdownSettled r (Fulfilled ()))).1 inputs) i).2 →
      is_call e = false.
Proof.
  intros w r k inputs Hr.
  destruct (step_own w (ShutdownSettled r (Fulfilled ())) r _ Hr eq_refl)
    as [E H].
  split; [exact E|]. by apply finished_forever.
Qed.

Lemma X14_witness :
  (step closing_widget (ShutdownSettled 0 (Fulfilled ()))).2 =
    [log1 "Kernel shut down"] ∧
  runs (final (step closing_widget (ShutdownSettled 0 (Fulfilled ()))).1
              (launch 1 python3)) !! 0 = Some (ShutDown python3).
Proof.
  destruct (X14_run_is_over_after_shutdown closing_widget 0 python3
              (launch 1 python3) eq_refl) as (E & H & _).
  split; [exact E|exact H].
Defined.
